(** * HSK learning application: flashcard navigation and the quiz session

    A shallow embedding of the request handlers of [app.py] that carry the
    flashcard navigator ([flashcards]) and the quiz session engine
    ([quiz_start], [quiz_question], [quiz_submit], [quiz_next],
    [quiz_result]), with the properties of the specification stated and
    proved over them.

    The handlers read and write three pieces of state, all explicit here:
    the SQLite database (tables [vocabulary] and [progress]), the Flask
    session (a dictionary with a fixed set of keys) and the generator
    behind the [random] module. *)

From Stdlib Require Import ZArith String DecimalString.
From stdpp Require Import base tactics option list numbers strings gmap.

Local Open Scope string_scope.
Local Open Scope nat_scope.
Local Open Scope list_scope.

(** ** Python values and exceptions *)

(** The exceptions the handlers can let escape. None of them is caught in
    [app.py]: an escaping exception is an HTTP 500 response. *)
Inductive exn :=
  | KeyError (key : string)
  | ValueError (msg : string)
  | TypeError (msg : string)
  | IndexError (msg : string).

Inductive result (A : Type) :=
  | Ok (a : A)
  | Raise (e : exn).
Arguments Ok {A} a.
Arguments Raise {A} e.

Global Instance result_bind : MBind result := λ A B k r,
  match r with
  | Ok a => k a
  | Raise e => Raise e
  end.

(** [str(n)] of an integer, as an f-string or a bound SQL parameter
    renders it. *)
Definition str (n : Z) : string := NilZero.string_of_int (Z.to_int n).

(** [l[i]] on a Python list: a negative index counts from the end, an
    index out of range raises [IndexError]. *)
Definition py_index {A} (l : list A) (i : Z) : result A :=
  let n := Z.of_nat (length l) in
  let k := if (i <? 0)%Z then (n + i)%Z else i in
  if (k <? 0)%Z then Raise (IndexError "list index out of range")
  else match l !! Z.to_nat k with
       | Some a => Ok a
       | None => Raise (IndexError "list index out of range")
       end.

(** ** The [random] module

    The generator is an explicit stream of raw draws; [randbelow n] consumes
    one of them. Every statement below is for an arbitrary stream, that is,
    for every outcome of the random choices. *)
Definition rng := list nat.

Definition randbelow (n : nat) (g : rng) : nat * rng :=
  match g with
  | [] => (0, [])
  | r :: g' => (match n with 0 => 0 | _ => r `mod` n end, g')
  end.

Section Random.
Context {A : Type}.

(** The selection loop of [random.sample]: [result[i] = pool[j]] for a
    [j] below the [m = n - i] live entries, then the last live entry
    moves into the vacancy, [pool[j] = pool[n-i-1]]. The library runs this
    loop on populations that are small against [k] and otherwise draws
    indices until [k] different ones are found; both select [k] different
    positions of the population, and the loop stands for both here. *)
Fixpoint sample_loop (pool : list A) (m k : nat) (g : rng)
  : result (list A * rng) :=
  match k with
  | 0 => Ok ([], g)
  | S k' =>
      let '(j, g1) := randbelow m g in
      match pool !! j, pool !! (m - 1) with
      | Some x, Some y =>
          '(r, g2) ← sample_loop (<[j:=y]> pool) (m - 1) k' g1;
          Ok (x :: r, g2)
      | _, _ => Raise (IndexError "list index out of range")
      end
  end.

(** [random.sample(population, k)]: [ValueError] unless [0 <= k <= n]. *)
Definition random_sample (population : list A) (k : Z) (g : rng)
  : result (list A * rng) :=
  let n := length population in
  if bool_decide (0 ≤ k ≤ Z.of_nat n)%Z
  then sample_loop population n (Z.to_nat k) g
  else Raise (ValueError "Sample larger than population or is negative").

(** The loop of [random.shuffle], [i] running from [len(x) - 1] down to
    1: [j = randbelow(i + 1)], then [x[i], x[j] = x[j], x[i]]. *)
Fixpoint shuffle_loop (i : nat) (x : list A) (g : rng)
  : result (list A * rng) :=
  match i with
  | 0 => Ok (x, g)
  | S i' =>
      let '(j, g1) := randbelow (i + 1) g in
      match x !! j, x !! i with
      | Some xj, Some xi => shuffle_loop i' (<[j:=xi]> (<[i:=xj]> x)) g1
      | _, _ => Raise (IndexError "list index out of range")
      end
  end.

Definition random_shuffle (x : list A) (g : rng) : result (list A * rng) :=
  shuffle_loop (length x - 1) x g.
End Random.

(** ** The database *)

(** A row of [vocabulary]. [hsk_level] is a TEXT column. *)
Record vocab_row := {
  v_id : Z;
  v_hanzi : string;
  v_pinyin : string;
  v_meaning : string;
  v_hsk_level : string
}.

(** A row of [progress]. *)
Record progress_row := {
  p_id : Z;
  p_user_id : Z;
  p_vocab_id : Z;
  p_learned : Z
}.

Record database := {
  vocabulary : list vocab_row;
  progress : list progress_row
}.

Global Instance vocab_row_eq_dec : EqDecision vocab_row.
Proof. solve_decision. Defined.

Global Instance progress_row_eq_dec : EqDecision progress_row.
Proof. solve_decision. Defined.

(** [WHERE hsk_level=?] with the integer [level] bound: the column has
    TEXT affinity, so the parameter is compared as its decimal text. *)
Definition at_level (level : Z) (v : vocab_row) : Prop :=
  v_hsk_level v = str level.

Global Instance at_level_dec level v : Decision (at_level level v).
Proof. unfold at_level. apply _. Defined.

(** [SELECT * FROM vocabulary WHERE hsk_level=?], all rows. *)
Definition select_level (level : Z) (tbl : list vocab_row) : list vocab_row :=
  filter (at_level level) tbl.

(** The integers SQLite stores and the driver binds to a [?]: 64 bits,
    signed. Binding a Python [int] outside this range raises
    [OverflowError] before the query runs. *)
Definition sqlite_int (i : Z) : Prop := (- 2 ^ 63 ≤ i < 2 ^ 63)%Z.

Global Instance sqlite_int_dec i : Decision (sqlite_int i).
Proof. unfold sqlite_int. apply _. Defined.

(** [SELECT * FROM vocabulary WHERE id=?], [fetchone()], for a parameter
    [i] the driver binds ([sqlite_int i]); the ids of rows are in that
    range. *)
Definition select_id (i : Z) (tbl : list vocab_row) : option vocab_row :=
  head (filter (λ v, v_id v = i) tbl).

(** [ORDER BY id ASC] and [ORDER BY id DESC]. *)
Fixpoint insert_by (le : vocab_row → vocab_row → bool) (v : vocab_row)
    (l : list vocab_row) : list vocab_row :=
  match l with
  | [] => [v]
  | w :: l' => if le v w then v :: l else w :: insert_by le v l'
  end.

Definition order_by (le : vocab_row → vocab_row → bool)
    (l : list vocab_row) : list vocab_row :=
  foldr (insert_by le) [] l.

Definition id_asc (v w : vocab_row) : bool := (v_id v <=? v_id w)%Z.
Definition id_desc (v w : vocab_row) : bool := (v_id w <=? v_id v)%Z.

(** [... WHERE hsk_level=? AND id > ? ORDER BY id ASC], [fetchone()]. *)
Definition select_after (level anchor : Z) (tbl : list vocab_row)
  : option vocab_row :=
  head (order_by id_asc
          (filter (λ v, at_level level v ∧ (anchor < v_id v)%Z) tbl)).

(** [... WHERE hsk_level=? AND id < ? ORDER BY id DESC], [fetchone()]. *)
Definition select_before (level anchor : Z) (tbl : list vocab_row)
  : option vocab_row :=
  head (order_by id_desc
          (filter (λ v, at_level level v ∧ (v_id v < anchor)%Z) tbl)).

(** [... WHERE hsk_level=? ORDER BY id ASC], [fetchone()]. *)
Definition select_first (level : Z) (tbl : list vocab_row)
  : option vocab_row :=
  head (order_by id_asc (select_level level tbl)).

(** [SELECT id FROM progress WHERE user_id=? AND vocab_id=?], [fetchone()]. *)
Definition select_progress (user vocab : Z) (tbl : list progress_row)
  : option progress_row :=
  head (filter (λ p, p_user_id p = user ∧ p_vocab_id p = vocab) tbl).

(** [INSERT INTO progress (user_id, vocab_id, learned) VALUES (?, ?, ?)]:
    the AUTOINCREMENT key is one more than the largest key the table ever
    held, which is the largest key in the table, as no handler deletes a
    row. *)
Definition next_rowid (tbl : list progress_row) : Z :=
  (foldr Z.max 0 (p_id <$> tbl) + 1)%Z.

Definition insert_progress (user vocab learned : Z) (tbl : list progress_row)
  : list progress_row :=
  tbl ++ [{| p_id := next_rowid tbl; p_user_id := user;
             p_vocab_id := vocab; p_learned := learned |}].

(** ** The Flask session and the responses *)

(** The session dictionary. A key that is absent is [None]; the handlers
    store integers under [user_id], [quiz_current], [quiz_correct],
    [quiz_level] and [quiz_total], a list of identifiers under
    [quiz_words] and a string under [quiz_feedback]. *)
Record session := {
  user_id : option Z;
  quiz_words : option (list Z);
  quiz_current : option Z;
  quiz_correct : option Z;
  quiz_level : option Z;
  quiz_total : option Z;
  quiz_feedback : option string
}.

(** [session[key]] read for an update: [KeyError] when the key is absent. *)
Definition getitem {A} (key : string) (field : option A) : result A :=
  match field with
  | Some a => Ok a
  | None => Raise (KeyError key)
  end.

Definition set_quiz_current (c : Z) (s : session) : session :=
  {| user_id := user_id s; quiz_words := quiz_words s;
     quiz_current := Some c; quiz_correct := quiz_correct s;
     quiz_level := quiz_level s; quiz_total := quiz_total s;
     quiz_feedback := quiz_feedback s |}.

Definition set_quiz_correct (c : Z) (s : session) : session :=
  {| user_id := user_id s; quiz_words := quiz_words s;
     quiz_current := quiz_current s; quiz_correct := Some c;
     quiz_level := quiz_level s; quiz_total := quiz_total s;
     quiz_feedback := quiz_feedback s |}.

Definition set_quiz_feedback (f : string) (s : session) : session :=
  {| user_id := user_id s; quiz_words := quiz_words s;
     quiz_current := quiz_current s; quiz_correct := quiz_correct s;
     quiz_level := quiz_level s; quiz_total := quiz_total s;
     quiz_feedback := Some f |}.

(** [url_for(...)] targets of the redirects. *)
Inductive endpoint :=
  | url_flashcards (level : Z) (next : option Z)
  | url_quiz (level : Z)
  | url_quiz_start (level : Z)
  | url_quiz_question (level : Z)
  | url_quiz_feedback (level : Z)
  | url_quiz_result (level : Z).

(** What a handler returns: a plain body, a redirect, or a template with
    its arguments. *)
Inductive response :=
  | Body (text : string)
  | Redirect (target : endpoint)
  | flashcards_html (vocab : option vocab_row) (level : Z)
      (prev_id next_id : option Z)
  | quiz_start_html (level : Z)
  | quiz_question_html (question : option vocab_row)
      (options : option (list (option vocab_row))) (level : Z)
      (total current : Z) (feedback : option string)
  | quiz_result_html (total correct level : Z).

Inductive http_method := GET | POST.

(** ** Flashcards *)

(** The part of the request [flashcards] reads. [form_learned],
    [args_next] and [args_prev] are vocabulary identifiers sent as decimal
    text; an empty value is falsy in the source and takes the branch of an
    absent one, so both are [None] here, while every identifier, 0
    included, is a non-empty text and truthy. *)
Record flashcards_request := {
  method : http_method;
  form_learned : option Z;
  args_next : option Z;
  args_prev : option Z
}.

(** [if user_id] on the integer stored at login: absent and 0 are falsy. *)
Definition truthy (u : option Z) : option Z :=
  match u with
  | Some n => if bool_decide (n = 0%Z) then None else Some n
  | None => None
  end.

(** The card to show: the three branches on [next_anchor], [prev_anchor]. *)
Definition navigate (level : Z) (next_anchor prev_anchor : option Z)
    (tbl : list vocab_row) : option vocab_row :=
  match next_anchor with
  | Some a => select_after level a tbl
  | None =>
      match prev_anchor with
      | Some a => select_before level a tbl
      | None => select_first level tbl
      end
  end.

(** The mark-learned step of a POST: nothing is inserted when a row for
    the pair exists. *)
Definition mark_learned (user vocab : Z) (db : database) : database :=
  match select_progress user vocab (progress db) with
  | Some _ => db
  | None => {| vocabulary := vocabulary db;
               progress := insert_progress user vocab 1 (progress db) |}
  end.

Definition flashcards_page (req : flashcards_request) (level : Z)
    (db : database) : response :=
  let vocab := navigate level (args_next req) (args_prev req) (vocabulary db) in
  let '(prev_id, next_id) :=
    match vocab with
    | Some v =>
        (v_id <$> select_before level (v_id v) (vocabulary db),
         v_id <$> select_after level (v_id v) (vocabulary db))
    | None => (None, None)
    end in
  flashcards_html vocab level prev_id next_id.

Definition flashcards (req : flashcards_request) (level : Z) (s : session)
    (db : database) : response * database :=
  match method req with
  | POST =>
      match truthy (user_id s), form_learned req with
      | Some user, Some vocab =>
          (Redirect (url_flashcards level (Some vocab)),
           mark_learned user vocab db)
      | _, _ => (flashcards_page req level db, db)
      end
  | GET => (flashcards_page req level db, db)
  end.

(** ** The quiz *)

Definition quiz_start (m : http_method) (level num : Z)
    (tbl : list vocab_row) (s : session) (g : rng)
  : result (response * session * rng) :=
  match m with
  | POST =>
      if bool_decide (num `mod` 5 ≠ 0)%Z
      then Ok (Body "Please enter a number that is a multiple of 5.", s, g)
      else
        let vocab_list := select_level level tbl in
        if bool_decide (Z.of_nat (length vocab_list) < num)%Z
        then Ok (Body ("Not enough words! Max allowed: "
                       +:+ str (Z.of_nat (length vocab_list))), s, g)
        else
          '(vocab_ids, g') ← random_sample (v_id <$> vocab_list) num g;
          Ok (Redirect (url_quiz_question level),
              {| user_id := user_id s;
                 quiz_words := Some vocab_ids;
                 quiz_current := Some 0%Z;
                 quiz_correct := Some 0%Z;
                 quiz_level := Some level;
                 quiz_total := Some num;
                 quiz_feedback := quiz_feedback s |},
              g')
  | GET => Ok (quiz_start_html level, s, g)
  end.

(** The question page, built by the same lines in [quiz_question] and in
    [quiz_next]: the target row, three other rows of the level, the target
    appended, the four shuffled. *)
Definition question_page (level : Z) (words : list Z) (current : Z)
    (tbl : list vocab_row) (g : rng) : result (response * rng) :=
  question_id ← py_index words current;
  let question := select_id question_id tbl in
  let vocab_list := select_level level tbl in
  '(sampled, g1) ←
    random_sample (filter (λ v, v_id v ≠ question_id) vocab_list) 3 g;
  '(options, g2) ← random_shuffle ((Some <$> sampled) ++ [question]) g1;
  Ok (quiz_question_html question (Some options) level
        (Z.of_nat (length words)) current None, g2).

Definition quiz_question (level : Z) (tbl : list vocab_row) (s : session)
    (g : rng) : result (response * rng) :=
  let words := default [] (quiz_words s) in
  let current := default 0%Z (quiz_current s) in
  if bool_decide (words = [])
  then Ok (Redirect (url_quiz level), g)
  else if bool_decide (Z.of_nat (length words) ≤ current)%Z
  then Ok (Redirect (url_quiz_result level), g)
  else question_page level words current tbl g.

(** [quiz], the route the redirect above leads to. *)
Definition quiz (level : Z) : response := Redirect (url_quiz_start level).

Definition quiz_submit (level answer_id correct_id : Z)
    (tbl : list vocab_row) (s : session) : result (response * session) :=
  '(feedback, s1) ←
    (if bool_decide (answer_id = correct_id)
     then
       c ← getitem "quiz_correct" (quiz_correct s);
       Ok ("Correct!", set_quiz_correct (c + 1) s)
     else
       match select_id correct_id tbl with
       | Some correct_word =>
           Ok ("Wrong! Correct answer: " +:+ v_hanzi correct_word, s)
       | None => Raise (TypeError "'NoneType' object is not subscriptable")
       end);
  Ok (Redirect (url_quiz_feedback level), set_quiz_feedback feedback s1).

Definition quiz_feedback_page (level : Z) (s : session) : response :=
  quiz_question_html None None level
    (Z.of_nat (length (default [] (quiz_words s))))
    (default 0%Z (quiz_current s))
    (Some (default "" (quiz_feedback s))).

Definition quiz_next (level : Z) (tbl : list vocab_row) (s : session)
    (g : rng) : result (response * session * rng) :=
  c ← getitem "quiz_current" (quiz_current s);
  let s1 := set_quiz_current (c + 1) s in
  let current := default 0%Z (quiz_current s1) in
  let words := default [] (quiz_words s1) in
  if bool_decide (Z.of_nat (length words) ≤ current)%Z
  then Ok (Redirect (url_quiz_result level), s1, g)
  else
    '(page, g') ← question_page level words current tbl g;
    Ok (page, s1, g').

Definition quiz_result (level : Z) (s : session) : response * session :=
  let total := default 0%Z (quiz_total s) in
  let correct := default 0%Z (quiz_correct s) in
  (quiz_result_html total correct level,
   {| user_id := user_id s; quiz_words := None; quiz_current := None;
      quiz_correct := None; quiz_level := None; quiz_total := None;
      quiz_feedback := None |}).

(** ** Sequences of requests

    A quiz is a sequence of [quiz_submit] and [quiz_next] requests against
    one session. The handlers do not check the order of the requests. *)
Inductive call :=
  | Submit (answer_id correct_id : Z)
  | Next.

Fixpoint run (level : Z) (tbl : list vocab_row) (cs : list call)
    (s : session) (g : rng) : result (session * rng) :=
  match cs with
  | [] => Ok (s, g)
  | Submit answer_id correct_id :: cs' =>
      '(_, s1) ← quiz_submit level answer_id correct_id tbl s;
      run level tbl cs' s1 g
  | Next :: cs' =>
      '(_, s1, g1) ← quiz_next level tbl s g;
      run level tbl cs' s1 g1
  end.

Global Instance call_eq_dec : EqDecision call.
Proof. solve_decision. Defined.

(** The number of [quiz_next] requests and of right answers in a sequence. *)
Definition advances (cs : list call) : Z :=
  Z.of_nat (length (filter (λ c, c = Next) cs)).

Definition is_right (c : call) : bool :=
  match c with
  | Submit answer_id correct_id => bool_decide (answer_id = correct_id)
  | Next => false
  end.

Definition right_answers (cs : list call) : Z :=
  Z.of_nat (length (filter (λ c, is_right c) cs)).

(** ** The other pages

    The remaining routes of [app.py]: sign-up, login, logout and the home
    page, the level selection, the paginated vocabulary list and the
    progress page; then [seed_if_empty]. *)

(** What these pages take from their libraries and the engine without the
    source saying how it is computed: [str.lower] and [str.strip] of
    Python, [lower] and [LIKE] of SQLite ([sql_like text pattern] is
    [text LIKE pattern]). The statements below hold for every such
    library. *)
Class Library := {
  py_lower : string → string;
  py_strip : string → string;
  sql_lower : string → string;
  sql_like : string → string → bool
}.

(** [l[start:stop]] on a Python list: a negative bound counts from the
    end, both bounds are clamped to the list, and an empty range gives the
    empty list. *)
Definition slice_bound (n i : Z) : Z :=
  if (i <? 0)%Z then Z.max 0 (n + i) else Z.min i n.

Definition py_slice {A} (l : list A) (start stop : Z) : list A :=
  let n := Z.of_nat (length l) in
  let a := slice_bound n start in
  let b := slice_bound n stop in
  take (Z.to_nat (b - a)) (drop (Z.to_nat a) l).

(** A row of [users]; [email] is UNIQUE. *)
Record user_row := {
  u_id : Z;
  u_email : string;
  u_password : string
}.

(** Redirect targets of these pages, literal paths included. *)
Inductive location :=
  | path (p : string)
  | url_welcome
  | url_login.

(** What these pages return. The rows of [vocab_list_html] carry the
    [learned] column of the query; [levels] and [progress] are the level
    with its count and its percentage. *)
Inductive view :=
  | redirect_to (target : location)
  | welcome_html
  | signup_html
  | login_html (error : option string)
  | home_html
  | hsk_selection_html (levels : list (Z * Z))
  | vocab_list_html (vocab_list : list (vocab_row * Z)) (level : Z)
      (search : string) (page total_pages : Z)
  | progress_html (progress : list (Z * Z)).

(** The errors of the engine: a violated constraint, and a write on a
    database another connection holds the write lock of. Nothing in
    [app.py] catches them. *)
Inductive outcome (A : Type) :=
  | Done (a : A)
  | IntegrityError (msg : string)
  | OperationalError (msg : string).
Arguments Done {A} a.
Arguments IntegrityError {A} msg.
Arguments OperationalError {A} msg.

Definition welcome : view := welcome_html.

(** [INSERT INTO users (email, password) VALUES (?, ?)]; the key as for
    [progress]. *)
Definition insert_user (email password : string) (users : list user_row)
  : outcome (list user_row) :=
  if bool_decide (email ∈ u_email <$> users)
  then IntegrityError "UNIQUE constraint failed: users.email"
  else Done (users ++ [{| u_id := (foldr Z.max 0 (u_id <$> users) + 1)%Z;
                          u_email := email; u_password := password |}]).

(** [signup] on the rows of [users], for a database that no other
    connection is writing to; [signup_request] below is the handler with
    the lock of the database. *)
Definition signup (m : http_method) (email password : string)
    (users : list user_row) : outcome (view * list user_row) :=
  match m with
  | POST =>
      match insert_user email password users with
      | Done users' => Done (redirect_to (path "/login"), users')
      | IntegrityError msg => IntegrityError msg
      | OperationalError msg => OperationalError msg
      end
  | GET => Done (signup_html, users)
  end.

(** The table [users] as a request finds it. [write_locked] tells whether
    a connection that was not closed holds the write lock: an [INSERT] of
    another connection then ends, after the timeout, in the
    [OperationalError] "database is locked". *)
Record users_table := {
  user_rows : list user_row;
  write_locked : bool
}.

(** [signup], with what it leaves behind. [conn.commit()] and
    [conn.close()] follow the [INSERT] without a [try]/[finally]: when
    the [INSERT] is refused they are skipped, and the connection stays
    open inside its write transaction, the lock held, until the
    connection object is collected. *)
Definition signup_request (m : http_method) (email password : string)
    (t : users_table) : outcome view * users_table :=
  match m with
  | POST =>
      if write_locked t then (OperationalError "database is locked", t)
      else
        match signup POST email password (user_rows t) with
        | Done (v, users') =>
            (Done v, {| user_rows := users'; write_locked := false |})
        | IntegrityError msg =>
            (IntegrityError msg,
             {| user_rows := user_rows t; write_locked := true |})
        | OperationalError msg => (OperationalError msg, t)
        end
  | GET => (Done signup_html, t)
  end.

Definition set_user_id (u : Z) (s : session) : session :=
  {| user_id := Some u; quiz_words := quiz_words s;
     quiz_current := quiz_current s; quiz_correct := quiz_correct s;
     quiz_level := quiz_level s; quiz_total := quiz_total s;
     quiz_feedback := quiz_feedback s |}.

(** [login]. The third component is the value [session.permanent] was
    set to, if it was set. *)
Definition login (m : http_method) (email password : string)
    (remember : option string) (users : list user_row) (s : session)
  : view * session * option bool :=
  match m with
  | POST =>
      match head (filter (λ u, u_email u = email ∧ u_password u = password)
                    users) with
      | Some user =>
          (redirect_to (path "/home"), set_user_id (u_id user) s,
           Some (bool_decide (remember = Some "yes")))
      | None =>
          (login_html (Some "Invalid email or password. Please try again."),
           s, None)
      end
  | GET => (login_html None, s, None)
  end.

(** [home]: the test is on the presence of the key. *)
Definition home (s : session) : view :=
  match user_id s with
  | None => redirect_to (path "/login")
  | Some _ => home_html
  end.

(** [logout]: [session.clear()]. *)
Definition logout (s : session) : view * session :=
  (redirect_to url_welcome,
   {| user_id := None; quiz_words := None; quiz_current := None;
      quiz_correct := None; quiz_level := None; quiz_total := None;
      quiz_feedback := None |}).

(** The count of the rows of [vocabulary] with [hsk_level=?]. *)
Definition count_level (level : Z) (tbl : list vocab_row) : Z :=
  Z.of_nat (length (select_level level tbl)).

Definition hsk_select (db : database) : view :=
  hsk_selection_html
    ((λ i, (i, count_level i (vocabulary db))) <$> [1; 2; 3; 4; 5; 6]%Z).

(** The rows one vocabulary row gives in
    [vocabulary v LEFT JOIN progress p ON v.id = p.vocab_id AND p.user_id = ?],
    with the column [CASE WHEN p.vocab_id IS NOT NULL THEN 1 ELSE 0 END]:
    one per matching record, or one with 0 when no record matches. *)
Definition left_join_learned (user : Z) (records : list progress_row)
    (v : vocab_row) : list (vocab_row * Z) :=
  match filter (λ p, v_id v = p_vocab_id p ∧ p_user_id p = user) records with
  | [] => [(v, 0%Z)]
  | matching => (λ _, (v, 1%Z)) <$> matching
  end.

(** [lower(v.hanzi) LIKE ? OR lower(v.pinyin) LIKE ? OR lower(v.meaning) LIKE ?]. *)
Definition search_matches `{Library} (q : string) (v : vocab_row) : bool :=
  sql_like (sql_lower (v_hanzi v)) q
  || sql_like (sql_lower (v_pinyin v)) q
  || sql_like (sql_lower (v_meaning v)) q.

(** The part of the request [vocab_list] reads: [search] and [page], the
    latter already through [int]. *)
Record vocab_list_request := {
  args_search : option string;
  args_page : option Z
}.

(** The four queries of [vocab_list], in the order of the source. *)
Definition vocab_list_rows `{Library} (search : string) (level : Z)
    (s : session) (db : database) : list (vocab_row * Z) :=
  if bool_decide (search ≠ "")
  then
    let q := "%" +:+ py_lower search +:+ "%" in
    match truthy (user_id s) with
    | Some user =>
        filter (λ v, at_level level v ∧ search_matches q v) (vocabulary db)
        ≫= left_join_learned user (progress db)
    | None =>
        (λ v, (v, 0%Z))
        <$> filter (λ v, at_level level v ∧ search_matches q v)
              (vocabulary db)
    end
  else
    match truthy (user_id s) with
    | Some user =>
        select_level level (vocabulary db)
        ≫= left_join_learned user (progress db)
    | None => (λ v, (v, 0%Z)) <$> select_level level (vocabulary db)
    end.

Definition vocab_list `{Library} (req : vocab_list_request) (level : Z)
    (s : session) (db : database) : view :=
  let search := default "" (args_search req) in
  let page := default 1%Z (args_page req) in
  let per_page := 10%Z in
  let vocab := vocab_list_rows search level s db in
  let total := Z.of_nat (length vocab) in
  let total_pages := ((total + per_page - 1) `div` per_page)%Z in
  let start := ((page - 1) * per_page)%Z in
  let end_ := (start + per_page)%Z in
  let vocab_page := py_slice vocab start end_ in
  vocab_list_html vocab_page level search page total_pages.

(** The second query of [progress]:
    [SELECT COUNT(DISTINCT p.vocab_id) FROM progress p JOIN vocabulary v
     ON p.vocab_id=v.id WHERE p.user_id=? AND v.hsk_level=? AND p.learned=1]. *)
Definition count_learned (user level : Z) (db : database) : Z :=
  let joined :=
    p ← progress db;
    (λ v, (p, v)) <$> filter (λ v, p_vocab_id p = v_id v) (vocabulary db) in
  let selected :=
    filter (λ pv, p_user_id pv.1 = user ∧ at_level level pv.2
                  ∧ p_learned pv.1 = 1%Z) joined in
  Z.of_nat (length (remove_dups ((λ pv, p_vocab_id pv.1) <$> selected))).

(** *** Floats

    The floats of Python are the binary64 numbers: a quotient or a
    product is the exact value rounded to 53 significant bits, a tie
    going to the even neighbour. The values of the progress page are
    quotients of two counts and their products with 100, far from the
    limits of the exponent, which are left out. A float is written as a
    fraction whose denominator is a power of 2. *)
Section Float.
Local Open Scope Z_scope.

(** The integer nearest to [num / den], the even one of two. *)
Definition round_half_even (num den : Z) : Z :=
  let q := num `div` den in
  let r := num `mod` den in
  if bool_decide (2 * r < den) then q
  else if bool_decide (den < 2 * r) then q + 1
  else if Z.even q then q
  else q + 1.

(** [n / d] as a float, for [0 <= n] and [0 < d]: with the quotient scaled
    by [2^k] to more than 53 bits, [s] is the number of bits beyond the
    first 53, and the quotient is rounded to a multiple of [2^s]. *)
Definition round53 (n d : Z) : Z * Z :=
  if bool_decide (n = 0) then (0, 1)
  else
    let k := 54 + Z.log2 d in
    let s := Z.log2 ((n * 2 ^ k) `div` d) - 52 in
    (round_half_even (n * 2 ^ k) (d * 2 ^ s) * 2 ^ s, 2 ^ k).

(** [int((learned / total) * 100)]: the division of two [int]s gives the
    float nearest to the quotient, the product with 100 is rounded again,
    and [int] drops the fraction. *)
Definition float_percent (learned total : Z) : Z :=
  let '(n1, d1) := round53 learned total in
  let '(n2, d2) := round53 (n1 * 100) d1 in
  n2 `div` d2.
End Float.

(** [progress], the page (the name [progress] is the table's here). *)
Definition progress_page (s : session) (db : database) : view :=
  match user_id s with
  | None => redirect_to url_login
  | Some user =>
      progress_html
        ((λ lvl,
            let total := count_level lvl (vocabulary db) in
            let learned := count_learned user lvl db in
            (lvl, if bool_decide (0 < total)%Z
                  then float_percent learned total else 0%Z))
         <$> [1; 2; 3; 4; 5; 6]%Z)
  end.

(** *** Seeding *)

(** [a or b] on values of [row.get]: the first that is neither [None]
    nor empty. *)
Definition py_or (a b : option string) : option string :=
  match a with
  | Some "" | None => b
  | Some _ => a
  end.

(** The table [vocabulary] together with its entry of [sqlite_sequence],
    the largest key the table ever held: 0 before the first insertion,
    and not lowered when rows are deleted. *)
Record vocabulary_table := {
  vocab_rows : list vocab_row;
  vocab_seq : Z
}.

Definition largest_key (t : vocabulary_table) : Z :=
  Z.max (vocab_seq t) (foldr Z.max 0%Z (v_id <$> vocab_rows t)).

(** [INSERT INTO vocabulary (hanzi, pinyin, meaning, hsk_level) VALUES
    (?, ?, ?, ?)]: the AUTOINCREMENT key is one more than the largest key
    the table ever held, and [sqlite_sequence] records it. Once the key
    [2^63 - 1] was used the insertion fails (SQLITE_FULL, an
    [OperationalError]), which is [None] here. *)
Definition insert_vocabulary (hanzi pinyin meaning level : string)
    (t : vocabulary_table) : option vocabulary_table :=
  if bool_decide (largest_key t < 2 ^ 63 - 1)%Z
  then Some {| vocab_rows :=
                 vocab_rows t
                 ++ [{| v_id := (largest_key t + 1)%Z; v_hanzi := hanzi;
                        v_pinyin := pinyin; v_meaning := meaning;
                        v_hsk_level := level |}];
               vocab_seq := (largest_key t + 1)%Z |}
  else None.

(** The body of the loop over the rows of the CSV file; a row is the
    dictionary [csv.DictReader] yields. *)
Definition seed_row `{Library} (t : vocabulary_table)
    (row : gmap string string) : option vocabulary_table :=
  let hanzi := py_strip (default "" (py_or (row !! "hanzi") (Some ""))) in
  if bool_decide (hanzi = "") then Some t
  else
    let pinyin := py_strip (default "" (py_or (row !! "pinyin") (Some ""))) in
    let meaning := py_strip (default "" (py_or (row !! "meaning") (Some ""))) in
    let level :=
      py_strip (default "" (py_or (row !! "hsk_level")
                              (py_or (row !! "level") (Some "")))) in
    insert_vocabulary hanzi pinyin meaning level t.

(** The loop, [for row in reader]. *)
Fixpoint seed_rows `{Library} (t : vocabulary_table)
    (rows : list (gmap string string)) : option vocabulary_table :=
  match rows with
  | [] => Some t
  | row :: rows' => t' ← seed_row t row; seed_rows t' rows'
  end.

(** [seed_if_empty]; [file] is the content of the CSV file, [None] when
    there is no file. The insertions are one transaction: [conn.commit()]
    follows the loop, and when an insertion fails the handler of
    [except Exception] prints the error and [conn.close()] drops what was
    inserted. *)
Definition seed_if_empty `{Library} (file : option (list (gmap string string)))
    (t : vocabulary_table) : vocabulary_table :=
  if bool_decide (0 < Z.of_nat (length (vocab_rows t)))%Z then t
  else
    match file with
    | None => t
    | Some rows =>
        match seed_rows t rows with
        | Some t' => t'
        | None => t
        end
    end.

(** ** The vocabulary of the statements *)

(** [vocab] is the row with the smallest (largest) [id] among the rows of
    [tbl] that satisfy [P], and is [None] exactly when no row does. *)
Definition least_by_id (P : vocab_row → Prop) (tbl : list vocab_row)
    (vocab : option vocab_row) : Prop :=
  match vocab with
  | Some v => v ∈ tbl ∧ P v ∧ ∀ w, w ∈ tbl → P w → (v_id v ≤ v_id w)%Z
  | None => ∀ w, w ∈ tbl → ¬ P w
  end.

Definition greatest_by_id (P : vocab_row → Prop) (tbl : list vocab_row)
    (vocab : option vocab_row) : Prop :=
  match vocab with
  | Some v => v ∈ tbl ∧ P v ∧ ∀ w, w ∈ tbl → P w → (v_id w ≤ v_id v)%Z
  | None => ∀ w, w ∈ tbl → ¬ P w
  end.

(** The records of [progress] for one (user, vocabulary item) pair. *)
Definition records_for (user vocab : Z) (tbl : list progress_row)
  : list progress_row :=
  filter (λ p, p_user_id p = user ∧ p_vocab_id p = vocab) tbl.

(** The session of a quiz over the words [ws] of [level], at position
    [current] with [correct] right answers: the five keys [quiz_start]
    stores, a word list without repetition, of a length that is a positive
    multiple of 5, drawn from the rows of the level. *)
Definition quiz_state (tbl : list vocab_row) (level : Z) (ws : list Z)
    (current correct : Z) (s : session) : Prop :=
  quiz_words s = Some ws
  ∧ quiz_current s = Some current
  ∧ quiz_correct s = Some correct
  ∧ quiz_level s = Some level
  ∧ quiz_total s = Some (Z.of_nat (length ws))
  ∧ NoDup ws
  ∧ (0 < Z.of_nat (length ws))%Z
  ∧ (Z.of_nat (length ws) `mod` 5 = 0)%Z
  ∧ ∀ i, i ∈ ws → i ∈ v_id <$> select_level level tbl.

(** The options [opts] of a question for the target row [q]: four,
    pairwise distinct, all rows of the level, the target among them once,
    and the others three rows of the level with another [id]. The order of
    [opts] is the one the shuffle produced. *)
Definition question_options (tbl : list vocab_row) (level : Z)
    (q : vocab_row) (opts : list (option vocab_row)) : Prop :=
  length opts = 4
  ∧ NoDup opts
  ∧ (∀ o, o ∈ opts → ∃ v, o = Some v ∧ v ∈ tbl ∧ at_level level v)
  ∧ length (filter (λ o, o = Some q) opts) = 1
  ∧ ∃ distractors,
      length distractors = 3
      ∧ (∀ d, d ∈ distractors →
           d ∈ select_level level tbl ∧ v_id d ≠ v_id q)
      ∧ opts ≡ₚ (Some <$> distractors) ++ [Some q].

(** A [Submit] whose [correct_id] is the id of a row, as the hidden field
    of the question page is. *)
Definition answerable (tbl : list vocab_row) (c : call) : Prop :=
  match c with
  | Submit _ correct_id => is_Some (select_id correct_id tbl)
  | Next => True
  end.

(** The order the pages lead the client through: an answer to the
    question shown, then the request for the next question, until the last
    of [left] questions has been passed. *)
Inductive phase := IN_PROGRESS | AWAITING_NEXT | COMPLETED.

Fixpoint in_order (ph : phase) (left : nat) (cs : list call) : bool :=
  match cs, ph with
  | [], _ => true
  | Submit _ _ :: cs', IN_PROGRESS => in_order AWAITING_NEXT left cs'
  | Next :: cs', AWAITING_NEXT =>
      match left with
      | 0 => false
      | 1 => in_order COMPLETED 0 cs'
      | S left' => in_order IN_PROGRESS left' cs'
      end
  | _, _ => false
  end.

(** The sequence ends on an answer whose [quiz_next] has not come yet. *)
Definition awaiting_next (cs : list call) : bool :=
  match last cs with
  | Some (Submit _ _) => true
  | _ => false
  end.

(** The quiz keys of the session, all absent. *)
Definition no_quiz (s : session) : Prop :=
  quiz_words s = None ∧ quiz_current s = None ∧ quiz_correct s = None
  ∧ quiz_level s = None ∧ quiz_total s = None ∧ quiz_feedback s = None.

(** Whether [quiz_start] answered with a refusal: a plain body instead of
    the redirect to the first question. *)
Definition refused (r : result (response * session * rng)) : bool :=
  match r with
  | Ok (Body _, _, _) => true
  | _ => false
  end.

(** *** For the other pages *)

(** The rows and the page count a [vocab_list] page carries, the counts
    a level selection carries. *)
Definition shown_rows (v : view) : list (vocab_row * Z) :=
  match v with
  | vocab_list_html rows _ _ _ _ => rows
  | _ => []
  end.

Definition shown_total_pages (v : view) : Z :=
  match v with
  | vocab_list_html _ _ _ _ total_pages => total_pages
  | _ => 0%Z
  end.

Definition shown_levels (v : view) : list (Z * Z) :=
  match v with
  | hsk_selection_html levels => levels
  | _ => []
  end.

(** The vocabulary rows the WHERE clause of [vocab_list] keeps. *)
Definition listed `{Library} (search : string) (level : Z)
    (tbl : list vocab_row) : list vocab_row :=
  if bool_decide (search ≠ "")
  then filter (λ v, at_level level v
                    ∧ search_matches ("%" +:+ py_lower search +:+ "%") v) tbl
  else select_level level tbl.

(** At most one record per (user, vocabulary item) pair. *)
Definition one_record_per_pair (records : list progress_row) : Prop :=
  ∀ u v, length (records_for u v records) ≤ 1.

(** 1 when [records] has a record for [user] and the row, 0 otherwise. *)
Definition learned_flag (user : Z) (records : list progress_row)
    (v : vocab_row) : Z :=
  if decide (records_for user (v_id v) records = []) then 0%Z else 1%Z.

(** [records] has a record of [user] for the row with [learned = 1]. *)
Definition has_learned (user : Z) (records : list progress_row)
    (v : vocab_row) : Prop :=
  Exists (λ p, p_user_id p = user ∧ p_vocab_id p = v_id v
               ∧ p_learned p = 1%Z) records.

Global Instance has_learned_dec user records v :
  Decision (has_learned user records v).
Proof. unfold has_learned. apply _. Defined.

(** The rows of a level [user] has learned. *)
Definition learned_rows (user level : Z) (db : database) : list vocab_row :=
  filter (has_learned user (progress db)) (select_level level (vocabulary db)).

(** The four columns of a CSV row as they are to be stored, [None] for a
    row that is to be skipped: [hanzi], [pinyin] and [meaning] are the
    columns of these names, the level is the column [hsk_level] and, when
    that one is missing or empty, the column [level]; a missing column
    counts as empty, every value is stripped, and a row whose [hanzi] is
    then empty is skipped. *)
Definition seed_fields `{Library} (row : gmap string string)
  : option (string * string * string * string) :=
  let column name := default "" (row !! name) in
  let level :=
    if decide (column "hsk_level" = "") then column "level"
    else column "hsk_level" in
  if decide (py_strip (column "hanzi") = "") then None
  else Some (py_strip (column "hanzi"), py_strip (column "pinyin"),
             py_strip (column "meaning"), py_strip level).

(** The rows stored for a list of columns, with consecutive keys from
    [first]. *)
Fixpoint number_from (first : Z)
    (fields : list (string * string * string * string)) : list vocab_row :=
  match fields with
  | [] => []
  | (hanzi, pinyin, meaning, level) :: fields' =>
      {| v_id := first; v_hanzi := hanzi; v_pinyin := pinyin;
         v_meaning := meaning; v_hsk_level := level |}
      :: number_from (first + 1) fields'
  end.

(** ** Sample data *)

Definition word (i : Z) (level : string) : vocab_row :=
  {| v_id := i; v_hanzi := "w" +:+ str i; v_pinyin := "";
     v_meaning := ""; v_hsk_level := level |}.

Definition words_from (first count : nat) (level : string) : list vocab_row :=
  (λ i, word (Z.of_nat i) level) <$> seq first count.

(** Twelve rows of level 1. *)
Definition level_of_12 : list vocab_row := words_from 1 12 "1".

(** Two rows of level 1, five of level 2 and three of level 3. *)
Definition three_levels : list vocab_row :=
  words_from 1 2 "1" ++ words_from 3 5 "2" ++ words_from 8 3 "3".

(** Level 2 of [three_levels] after rows were removed: rows 3 and 4 are
    left in [two_left], rows 5, 6 and 7 in [three_left]. *)
Definition two_left : list vocab_row := words_from 3 2 "2".
Definition three_left : list vocab_row := words_from 5 3 "2".

Definition no_session : session :=
  {| user_id := None; quiz_words := None; quiz_current := None;
     quiz_correct := None; quiz_level := None; quiz_total := None;
     quiz_feedback := None |}.

Definition user_42 : session :=
  {| user_id := Some 42%Z; quiz_words := None; quiz_current := None;
     quiz_correct := None; quiz_level := None; quiz_total := None;
     quiz_feedback := None |}.

(** The session [quiz_start] leaves for five words of level 2 of
    [three_levels] when every draw is 0. *)
Definition started : session :=
  {| user_id := None; quiz_words := Some [3; 7; 6; 5; 4]%Z;
     quiz_current := Some 0%Z; quiz_correct := Some 0%Z;
     quiz_level := Some 2%Z; quiz_total := Some 5%Z;
     quiz_feedback := None |}.

(** A library for the sample data: no case folding, no stripping, and
    [LIKE] as the test for a substring between the two wildcards. *)
Definition plain_library : Library :=
  {| py_lower := id; py_strip := id; sql_lower := id;
     sql_like := λ text q,
       match index 0 (substring 1 (String.length q - 2) q) text with
       | Some _ => true
       | None => false
       end |}.

(** Fifty rows of level 1, and the records of user 42 for the first 29
    of them. *)
Definition learned_29_of_50 : database :=
  {| vocabulary := words_from 1 50 "1";
     progress :=
       (λ i, {| p_id := Z.of_nat i; p_user_id := 42;
                p_vocab_id := Z.of_nat i; p_learned := 1 |})
       <$> seq 1 29 |}.

(** Twenty-three rows of level 1. *)
Definition level_of_23 : database :=
  {| vocabulary := words_from 1 23 "1"; progress := [] |}.

(** [three_levels] with one record: user 42 has learned row 4. *)
Definition one_mark : database :=
  {| vocabulary := three_levels;
     progress := [{| p_id := 1; p_user_id := 42; p_vocab_id := 4;
                     p_learned := 1 |}] |}.

(** The request that marks item 5 learned. *)
Definition mark_5 : flashcards_request :=
  {| method := POST; form_learned := Some 5%Z;
     args_next := None; args_prev := None |}.

Definition two_users : list user_row :=
  [{| u_id := 1; u_email := "li@example.org"; u_password := "abc" |};
   {| u_id := 2; u_email := "wang@example.org"; u_password := "xyz" |}].

(** Three rows of a CSV file with the header [hanzi,pinyin,meaning,level];
    the second has no [hanzi]. *)
Definition three_csv_rows : list (gmap string string) :=
  [{[ "hanzi" := "ni"; "pinyin" := "ni3"; "meaning" := "you";
      "level" := "1" ]};
   {[ "hanzi" := ""; "pinyin" := "hao3"; "meaning" := "good";
      "level" := "1" ]};
   {[ "hanzi" := "shu"; "pinyin" := "shu1"; "meaning" := "book";
      "level" := "2" ]}].

(** A table that held four rows and was emptied, and one whose last key
    but one was used. *)
Definition emptied_table : vocabulary_table :=
  {| vocab_rows := []; vocab_seq := 4 |}.

Definition nearly_full_table : vocabulary_table :=
  {| vocab_rows := []; vocab_seq := 2 ^ 63 - 2 |}.

(** * Properties *)

(** ** Sampling and shuffling *)

Lemma randbelow_lt n g : 0 < n → (randbelow n g).1 < n.
Proof.
  intros Hn. destruct g as [|r g]; simpl; [done|].
  destruct n as [|n]; [lia|]. apply Nat.mod_upper_bound. lia.
Qed.

Lemma randbelow_cons n r g : 0 < n → randbelow n (r :: g) = (r `mod` n, g).
Proof. intros Hn. unfold randbelow. by destruct n; [lia|]. Qed.

Section RandomFacts.
Context {A : Type}.
Implicit Types (pool population x y : list A) (g : rng).

(** One step of the selection loop keeps the live prefix of the pool,
    the selected entry aside, up to order. *)
Lemma take_vacancy pool m j a b :
  0 < m → m ≤ length pool →
  pool !! j = Some a → pool !! (m - 1) = Some b → j < m →
  a :: take (m - 1) (<[j:=b]> pool) ≡ₚ take m pool.
Proof.
  intros Hm Hlen Ha Hb Hj.
  destruct m as [|n]; [lia|]. replace (S n - 1) with n in * by lia.
  rewrite <-(Permutation_insert_swap (take (S n) pool) j n a b)
    by (rewrite lookup_take_lt by lia; done).
  rewrite <-!take_insert_lt by lia.
  rewrite (take_S_r _ n a)
    by (apply list_lookup_insert_eq; rewrite length_insert; lia).
  rewrite (take_insert_ge _ n n) by lia.
  by rewrite (comm (++)).
Qed.

(** The selection loop never fails on [k <= m <= len(pool)] and returns
    [k] entries which, with some remainder, are the live prefix of the
    pool rearranged: distinct positions of the pool. *)
Lemma sample_loop_spec k : ∀ pool m g,
  k ≤ m → m ≤ length pool →
  ∃ r g' rest, sample_loop pool m k g = Ok (r, g')
               ∧ length r = k ∧ r ++ rest ≡ₚ take m pool.
Proof.
  induction k as [|k IH]; intros pool m g Hk Hm; simpl.
  - by exists [], g, (take m pool).
  - pose proof (randbelow_lt m g ltac:(lia)) as Hj.
    destruct (randbelow m g) as [j g1]; simpl in Hj.
    destruct (lookup_lt_is_Some_2 pool j ltac:(lia)) as [a Ha].
    destruct (lookup_lt_is_Some_2 pool (m - 1) ltac:(lia)) as [b Hb].
    rewrite Ha, Hb.
    destruct (IH (<[j:=b]> pool) (m - 1) g1) as (r & g2 & rest & -> & Hr & Hp);
      [lia | rewrite length_insert; lia |].
    exists (a :: r), g2, rest. simpl. split_and!; [done | by rewrite Hr |].
    rewrite Hp. apply take_vacancy; auto with lia.
Qed.

Lemma random_sample_spec population k g :
  (0 ≤ k ≤ Z.of_nat (length population))%Z →
  ∃ r g' rest, random_sample population k g = Ok (r, g')
               ∧ length r = Z.to_nat k ∧ r ++ rest ≡ₚ population.
Proof.
  intros Hk. unfold random_sample. rewrite bool_decide_eq_true_2 by done.
  destruct (sample_loop_spec (Z.to_nat k) population (length population) g)
    as (r & g' & rest & ? & ? & Hp); [lia | lia |].
  rewrite firstn_all in Hp. by exists r, g', rest.
Qed.

Lemma random_sample_ValueError population k g :
  ¬ (0 ≤ k ≤ Z.of_nat (length population))%Z →
  random_sample population k g
  = Raise (ValueError "Sample larger than population or is negative").
Proof.
  intros Hk. unfold random_sample. by rewrite bool_decide_eq_false_2.
Qed.

Lemma shuffle_loop_spec i : ∀ x g,
  i < length x ∨ i = 0 →
  ∃ r g', shuffle_loop i x g = Ok (r, g') ∧ r ≡ₚ x.
Proof.
  induction i as [|i IH]; intros x g Hi; simpl.
  - by exists x, g.
  - destruct Hi as [Hi|]; [|lia].
    destruct (randbelow _ g) as [j g1] eqn:Hrand.
    assert (j < S i + 1) as Hj.
    { pose proof (randbelow_lt (S (i + 1)) g ltac:(lia)) as H.
      rewrite Hrand in H. simpl in H. lia. }
    destruct (lookup_lt_is_Some_2 x j ltac:(lia)) as [xj Hxj].
    destruct (lookup_lt_is_Some_2 x (S i) ltac:(lia)) as [xi Hxi].
    rewrite Hxj, Hxi.
    destruct (IH (<[j:=xi]> (<[S i:=xj]> x)) g1) as (r & g2 & -> & Hr).
    { rewrite !length_insert. lia. }
    exists r, g2. split; [done|].
    rewrite Hr. by apply Permutation_insert_swap.
Qed.

(** [random.shuffle] never fails and returns a rearrangement. *)
Lemma random_shuffle_spec x g :
  ∃ r g', random_shuffle x g = Ok (r, g') ∧ r ≡ₚ x.
Proof.
  apply shuffle_loop_spec. destruct x; simpl; lia.
Qed.

(** The selection loop reads exactly [k] draws of the stream. *)
Lemma sample_loop_draws k : ∀ pool m g,
  k ≤ m → m ≤ length pool → length g = k →
  ∃ r, ∀ g', sample_loop pool m k (g ++ g') = Ok (r, g').
Proof.
  induction k as [|k IH]; intros pool m g Hk Hm Hg.
  - destruct g; [|done]. by exists [].
  - destruct g as [|d g]; [done|]. simpl in Hg.
    assert (d `mod` m < m) as Hj by (apply Nat.mod_upper_bound; lia).
    destruct (lookup_lt_is_Some_2 pool (d `mod` m) ltac:(lia)) as [a Ha].
    destruct (lookup_lt_is_Some_2 pool (m - 1) ltac:(lia)) as [b Hb].
    destruct (IH (<[d `mod` m:=b]> pool) (m - 1) g) as [r Hr];
      [lia | rewrite length_insert; lia | lia |].
    exists (a :: r). intros g'. rewrite <-app_comm_cons.
    cbn [sample_loop]. rewrite randbelow_cons by lia.
    rewrite Ha, Hb, Hr. done.
Qed.

Lemma random_sample_draws population k g :
  (0 ≤ k ≤ Z.of_nat (length population))%Z → length g = Z.to_nat k →
  ∃ r, ∀ g', random_sample population k (g ++ g') = Ok (r, g').
Proof.
  intros Hk Hg. unfold random_sample. rewrite bool_decide_eq_true_2 by done.
  apply sample_loop_draws; lia.
Qed.

(** The swap loop reaches every arrangement [y] of [x]: the draws are the
    positions the entries of [y] are fetched from, the last entry first,
    each draw one that [randbelow] returns at that step
    ([j <= i], the [k]-th draw being made at [i - k]). *)
Lemma shuffle_loop_reaches i : ∀ x y,
  i < length x ∨ i = 0 →
  drop (S i) x = drop (S i) y →
  take (S i) x ≡ₚ take (S i) y →
  ∃ g, length g = i
       ∧ (∀ k d, g !! k = Some d → d + k ≤ i)
       ∧ ∀ g', shuffle_loop i x (g ++ g') = Ok (y, g').
Proof.
  induction i as [|i IH]; intros x y Hi Hdrop Htake.
  - exists []. split_and!; [done..|]. intros g'. simpl. f_equal. f_equal.
    rewrite <-(take_drop 1 x), <-(take_drop 1 y), Hdrop. f_equal.
    destruct x as [|a x], y as [|b y]; simpl in *; try done.
    + by apply Permutation_nil_cons in Htake.
    + symmetry in Htake. by apply Permutation_nil_cons in Htake.
    + by apply Permutation_singleton_inj in Htake as ->.
  - destruct Hi as [Hi|]; [|done].
    assert (length (take (S (S i)) y) = S (S i)) as Hleny.
    { rewrite <-Htake, length_take. lia. }
    rewrite length_take in Hleny.
    destruct (lookup_lt_is_Some_2 y (S i) ltac:(lia)) as [b Hb].
    destruct (lookup_lt_is_Some_2 x (S i) ltac:(lia)) as [a Ha].
    assert (b ∈ take (S (S i)) x) as Hin.
    { rewrite Htake. apply list_elem_of_lookup. exists (S i).
      by rewrite lookup_take_lt by lia. }
    apply list_elem_of_lookup in Hin as [j Hj].
    apply lookup_take_Some in Hj as [Hj Hjlt].
    set (x' := <[j:=a]> (<[S i:=b]> x)).
    assert (x' !! S i = Some b) as Hx'.
    { subst x'. destruct (decide (j = S i)) as [->|Hne].
      - rewrite list_lookup_insert_eq by (rewrite length_insert; lia).
        congruence.
      - rewrite list_lookup_insert_ne by done.
        by rewrite list_lookup_insert_eq by lia. }
    assert (drop (S (S i)) x' = drop (S (S i)) x) as Hdrop'.
    { subst x'. by rewrite !drop_insert_lt by lia. }
    assert (take (S (S i)) x' ≡ₚ take (S (S i)) x) as Htake'.
    { subst x'. rewrite !take_insert_lt by lia.
      apply Permutation_insert_swap; by rewrite lookup_take_lt by lia. }
    destruct (IH x' y) as (g & Hg & Hbound & Hrun).
    + left. subst x'. rewrite !length_insert. lia.
    + rewrite (drop_S x' b (S i)), (drop_S y b (S i)) by done.
      by rewrite Hdrop', Hdrop.
    + apply (Permutation_app_inv_r [b]).
      rewrite <-(take_S_r x' (S i) b), <-(take_S_r y (S i) b) by done.
      by rewrite Htake', Htake.
    + exists (j :: g). split_and!; [simpl; lia | |].
      * intros [|k] d Hd; simpl in Hd.
        -- injection Hd as <-. lia.
        -- apply Hbound in Hd. lia.
      * intros g'. rewrite <-app_comm_cons. cbn [shuffle_loop].
        rewrite randbelow_cons by lia.
        rewrite Nat.mod_small by lia.
        rewrite Hj, Ha. apply Hrun.
Qed.

(** [random.shuffle] reaches every arrangement of the list, on
    [len(x) - 1] draws. *)
Lemma random_shuffle_reaches x y :
  y ≡ₚ x →
  ∃ g, length g = length x - 1
       ∧ (∀ k d, g !! k = Some d → d + k ≤ length x - 1)
       ∧ ∀ g', random_shuffle x (g ++ g') = Ok (y, g').
Proof.
  intros Hperm. unfold random_shuffle.
  apply shuffle_loop_reaches.
  - destruct x; simpl; lia.
  - rewrite !drop_ge; [done|rewrite Hperm|]; lia.
  - rewrite !take_ge; [done|rewrite Hperm|]; lia.
Qed.
End RandomFacts.

(** ** Queries *)

Lemma select_level_elem level tbl v :
  v ∈ select_level level tbl ↔ at_level level v ∧ v ∈ tbl.
Proof. apply list_elem_of_filter. Qed.

(** [id] is the primary key: a table has no two rows with one [id], and
    neither has a selection from it. *)
Lemma select_level_ids_NoDup level tbl :
  NoDup (v_id <$> tbl) → NoDup (v_id <$> select_level level tbl).
Proof.
  intros Hnd. eapply sublist_NoDup; [done|].
  apply fmap_sublist, sublist_filter.
Qed.

Lemma select_id_Some i tbl v :
  select_id i tbl = Some v → v ∈ tbl ∧ v_id v = i.
Proof.
  unfold select_id. intros Hv%head_Some_elem_of%list_elem_of_filter. tauto.
Qed.

Lemma select_id_elem tbl v :
  NoDup (v_id <$> tbl) → v ∈ tbl → select_id (v_id v) tbl = Some v.
Proof.
  unfold select_id. induction tbl as [|w tbl IH]; intros Hnd Hv.
  - by apply elem_of_nil in Hv.
  - rewrite fmap_cons in Hnd. apply NoDup_cons in Hnd as [Hw Hnd].
    rewrite filter_cons. case_decide as Hid.
    + apply elem_of_cons in Hv as [->|Hv]; [done|].
      destruct Hw. rewrite Hid. by apply list_elem_of_fmap_2.
    + apply elem_of_cons in Hv as [->|Hv]; [done|]. by apply IH.
Qed.

Lemma filter_all {A} (P : A → Prop) `{!∀ x, Decision (P x)} (l : list A) :
  (∀ x, x ∈ l → P x) → filter P l = l.
Proof.
  induction l as [|a l IH]; intros Hall; [done|].
  rewrite filter_cons_True by (apply Hall; left).
  f_equal. apply IH. intros x Hx. apply Hall. by right.
Qed.

(** Leaving one [id] out of a selection drops at most one row. *)
Lemma exclude_id_length q (l : list vocab_row) :
  NoDup (v_id <$> l) →
  length l ≤ S (length (filter (λ v, v_id v ≠ q) l)).
Proof.
  induction l as [|w l IH]; intros Hnd; [simpl; lia|].
  rewrite fmap_cons in Hnd. apply NoDup_cons in Hnd as [Hw Hnd].
  rewrite filter_cons. case_decide as Hid; simpl.
  - specialize (IH Hnd). lia.
  - subst q.
    rewrite filter_all; [lia|].
    intros v Hv Heq. apply Hw. rewrite <-Heq. by apply list_elem_of_fmap_2.
Qed.

Section OrderBy.
Variable le : vocab_row → vocab_row → bool.
Hypothesis le_total : ∀ v w, le v w = true ∨ le w v = true.
Hypothesis le_trans : ∀ u v w, le u v = true → le v w = true → le u w = true.

Lemma insert_by_Permutation v l : insert_by le v l ≡ₚ v :: l.
Proof.
  induction l as [|w l IH]; simpl; [done|].
  destruct (le v w); [done|]. by rewrite IH, Permutation_swap.
Qed.

Lemma order_by_Permutation l : order_by le l ≡ₚ l.
Proof.
  induction l as [|v l IH]; simpl; [done|].
  by rewrite insert_by_Permutation, IH.
Qed.

(** The first row of an ordered selection is below every row of it. *)
Lemma insert_by_head v l m :
  (∀ m', head l = Some m' → ∀ w, w ∈ l → le m' w = true) →
  head (insert_by le v l) = Some m →
  ∀ w, w ∈ v :: l → le m w = true.
Proof.
  destruct l as [|u l]; simpl; intros Hl Hm w Hw.
  - simplify_eq. apply list_elem_of_singleton in Hw as ->.
    by destruct (le_total m m).
  - specialize (Hl u eq_refl).
    destruct (le v u) eqn:Hvu; simpl in Hm; injection Hm as <-.
    + apply elem_of_cons in Hw as [->|Hw].
      * by destruct (le_total v v).
      * eauto.
    + apply elem_of_cons in Hw as [->|Hw]; [|eauto].
      destruct (le_total v u); [congruence|done].
Qed.

Lemma order_by_head l m :
  head (order_by le l) = Some m → ∀ w, w ∈ l → le m w = true.
Proof.
  revert m. induction l as [|v l IH]; intros m Hm w Hw.
  - by apply elem_of_nil in Hw.
  - simpl in Hm. eapply insert_by_head in Hm; [done| |].
    + intros m' Hm' w' Hw'. apply IH; [done|].
      by rewrite <-(order_by_Permutation l).
    + apply elem_of_cons in Hw as [->|Hw]; [left|right].
      by rewrite order_by_Permutation.
Qed.

Lemma order_by_head_elem l m : head (order_by le l) = Some m → m ∈ l.
Proof.
  intros Hm%head_Some_elem_of. by rewrite order_by_Permutation in Hm.
Qed.

Lemma order_by_head_None l : head (order_by le l) = None ↔ l = [].
Proof.
  rewrite head_None. split; [|by intros ->].
  intros Hnil. apply Permutation_nil_r. by rewrite <-Hnil, order_by_Permutation.
Qed.
End OrderBy.

Lemma id_asc_total v w : id_asc v w = true ∨ id_asc w v = true.
Proof. unfold id_asc. rewrite !Z.leb_le. lia. Qed.

Lemma id_asc_trans u v w :
  id_asc u v = true → id_asc v w = true → id_asc u w = true.
Proof. unfold id_asc. rewrite !Z.leb_le. lia. Qed.

Lemma id_desc_total v w : id_desc v w = true ∨ id_desc w v = true.
Proof. unfold id_desc. rewrite !Z.leb_le. lia. Qed.

Lemma id_desc_trans u v w :
  id_desc u v = true → id_desc v w = true → id_desc u w = true.
Proof. unfold id_desc. rewrite !Z.leb_le. lia. Qed.

(** ** Flashcard navigation *)

Section FirstRow.
Context (P : vocab_row → Prop) `{!∀ v, Decision (P v)}.

Lemma first_asc tbl :
  least_by_id P tbl (head (order_by id_asc (filter P tbl))).
Proof.
  destruct (head _) as [m|] eqn:Hm; simpl.
  - pose proof (order_by_head_elem _ _ _ Hm) as [? ?]%list_elem_of_filter.
    split_and!; [done..|]. intros w Hw HP.
    apply Z.leb_le. fold (id_asc m w).
    eapply order_by_head; eauto using id_asc_total, id_asc_trans.
    by apply list_elem_of_filter.
  - apply order_by_head_None in Hm. intros w Hw HP.
    eapply elem_of_nil. rewrite <-Hm. by apply list_elem_of_filter.
Qed.

Lemma first_desc tbl :
  greatest_by_id P tbl (head (order_by id_desc (filter P tbl))).
Proof.
  destruct (head _) as [m|] eqn:Hm; simpl.
  - pose proof (order_by_head_elem _ _ _ Hm) as [? ?]%list_elem_of_filter.
    split_and!; [done..|]. intros w Hw HP.
    apply Z.leb_le. fold (id_desc m w).
    eapply order_by_head; eauto using id_desc_total, id_desc_trans.
    by apply list_elem_of_filter.
  - apply order_by_head_None in Hm. intros w Hw HP.
    eapply elem_of_nil. rewrite <-Hm. by apply list_elem_of_filter.
Qed.
End FirstRow.

(** C8. On a GET, [flashcards] shows: with [next] given, the row of the
    level with the smallest id strictly above it; with only [prev] given,
    the row of the level with the largest id strictly below it; with
    neither, the row of the level with the smallest id. In each case no
    row is shown exactly when the level has no such row. *)
Theorem flashcards_navigation req level s db :
  method req = GET →
  ∃ vocab prev_id next_id,
    flashcards req level s db
    = (flashcards_html vocab level prev_id next_id, db)
    ∧ match args_next req, args_prev req with
      | Some a, _ =>
          least_by_id (λ v, at_level level v ∧ (a < v_id v)%Z)
            (vocabulary db) vocab
      | None, Some a =>
          greatest_by_id (λ v, at_level level v ∧ (v_id v < a)%Z)
            (vocabulary db) vocab
      | None, None => least_by_id (at_level level) (vocabulary db) vocab
      end.
Proof.
  intros Hget. unfold flashcards, flashcards_page. rewrite Hget.
  set (vocab := navigate _ _ _ _).
  assert (match args_next req, args_prev req with
          | Some a, _ =>
              least_by_id (λ v, at_level level v ∧ (a < v_id v)%Z)
                (vocabulary db) vocab
          | None, Some a =>
              greatest_by_id (λ v, at_level level v ∧ (v_id v < a)%Z)
                (vocabulary db) vocab
          | None, None => least_by_id (at_level level) (vocabulary db) vocab
          end) as Hnav.
  { subst vocab. unfold navigate.
    destruct (args_next req) as [a|]; [apply first_asc|].
    destruct (args_prev req) as [a|]; [apply first_desc|apply first_asc]. }
  destruct vocab as [v|]; eauto.
Qed.

(** ** Progress records *)

Lemma mark_learned_present user vocab db :
  records_for user vocab (progress db) ≠ [] → mark_learned user vocab db = db.
Proof.
  unfold mark_learned, select_progress. fold (records_for user vocab (progress db)).
  by destruct (records_for _ _ _).
Qed.

Lemma mark_learned_absent user vocab db :
  records_for user vocab (progress db) = [] →
  progress (mark_learned user vocab db)
  = insert_progress user vocab 1 (progress db).
Proof.
  unfold mark_learned, select_progress. fold (records_for user vocab (progress db)).
  by intros ->.
Qed.

Lemma records_for_insert u v user vocab learned tbl :
  records_for u v (insert_progress user vocab learned tbl)
  = records_for u v tbl
    ++ (if decide (user = u ∧ vocab = v)
        then [{| p_id := next_rowid tbl; p_user_id := user;
                 p_vocab_id := vocab; p_learned := learned |}]
        else []).
Proof.
  unfold records_for, insert_progress. rewrite filter_app. by f_equal.
Qed.

(** A mark leaves exactly the records there were for the pair, or one if
    there was none, and touches no other pair. *)
Lemma mark_learned_records u v user vocab db :
  length (records_for u v (progress (mark_learned user vocab db)))
  = if decide (user = u ∧ vocab = v)
    then Nat.max 1 (length (records_for u v (progress db)))
    else length (records_for u v (progress db)).
Proof.
  destruct (records_for user vocab (progress db)) as [|p l] eqn:Hrec.
  - rewrite mark_learned_absent, records_for_insert by done.
    case_decide as Huv; [|by rewrite app_nil_r].
    destruct Huv as [-> ->]. by rewrite Hrec.
  - rewrite mark_learned_present by by rewrite Hrec.
    case_decide as Huv; [|done].
    destruct Huv as [-> ->]. rewrite Hrec. simpl. lia.
Qed.

(** C9. Marking one (user, vocabulary item) pair learned twice, on a table
    with at most one record per pair: the second mark is answered like the
    first, changes nothing, and leaves exactly one record for the pair and
    at most one for every pair. *)
Theorem mark_learned_twice req level s db user vocab :
  method req = POST →
  truthy (user_id s) = Some user →
  form_learned req = Some vocab →
  (∀ u v, length (records_for u v (progress db)) ≤ 1) →
  let first := flashcards req level s db in
  let second := flashcards req level s first.2 in
  first.1 = Redirect (url_flashcards level (Some vocab))
  ∧ second.1 = Redirect (url_flashcards level (Some vocab))
  ∧ second.2 = first.2
  ∧ length (records_for user vocab (progress second.2)) = 1
  ∧ ∀ u v, length (records_for u v (progress second.2)) ≤ 1.
Proof.
  intros Hpost Huser Hvocab Huniq. unfold flashcards.
  rewrite Hpost, Huser, Hvocab. simpl.
  assert (length (records_for user vocab
            (progress (mark_learned user vocab db))) = 1) as Hone.
  { rewrite mark_learned_records, decide_True by done.
    specialize (Huniq user vocab). lia. }
  assert (mark_learned user vocab (mark_learned user vocab db)
          = mark_learned user vocab db) as Hsame.
  { apply mark_learned_present. intros Hnil. by rewrite Hnil in Hone. }
  rewrite Hsame. split_and!; [done..|].
  intros u v. rewrite mark_learned_records.
  specialize (Huniq u v). case_decide; lia.
Qed.

(** ** The quiz session *)

Lemma py_index_inside {A} (l : list A) (i : Z) :
  (0 ≤ i < Z.of_nat (length l))%Z →
  ∃ a, py_index l i = Ok a ∧ l !! Z.to_nat i = Some a.
Proof.
  intros Hi. unfold py_index.
  destruct (i <? 0)%Z eqn:Hneg; [apply Z.ltb_lt in Hneg; lia|].
  rewrite Hneg.
  destruct (lookup_lt_is_Some_2 l (Z.to_nat i) ltac:(lia)) as [a Ha].
  rewrite Ha. eauto.
Qed.

(** A level that a quiz was started on has at least five rows. *)
Lemma quiz_state_level_size tbl level ws current correct s :
  quiz_state tbl level ws current correct s →
  5 ≤ length (select_level level tbl).
Proof.
  intros (_ & _ & _ & _ & _ & Hnd & Hpos & Hmod & Hin).
  assert (length ws ≤ length (v_id <$> select_level level tbl)) as Hle.
  { apply submseteq_length, NoDup_submseteq; auto. }
  rewrite length_fmap in Hle.
  apply Z.mod_divide in Hmod as [k Hk]; lia.
Qed.

(** [quiz_start] on a multiple of 5 within the size of the level: the
    sampling cannot fail, and the words are positions of the level's
    identifier list, each taken once. *)
Lemma quiz_start_accepts level num tbl s g :
  (num `mod` 5 = 0)%Z →
  (0 ≤ num ≤ Z.of_nat (length (select_level level tbl)))%Z →
  ∃ ws g' rest,
    quiz_start POST level num tbl s g
    = Ok (Redirect (url_quiz_question level),
          {| user_id := user_id s; quiz_words := Some ws;
             quiz_current := Some 0%Z; quiz_correct := Some 0%Z;
             quiz_level := Some level; quiz_total := Some num;
             quiz_feedback := quiz_feedback s |}, g')
    ∧ length ws = Z.to_nat num
    ∧ ws ++ rest ≡ₚ v_id <$> select_level level tbl.
Proof.
  intros Hmod Hnum. unfold quiz_start.
  rewrite bool_decide_eq_false_2 by (intros Hne; by apply Hne).
  rewrite bool_decide_eq_false_2 by lia.
  destruct (random_sample_spec (v_id <$> select_level level tbl) num g)
    as (ws & g' & rest & -> & Hlen & Hperm).
  { rewrite length_fmap. lia. }
  by exists ws, g', rest.
Qed.

Lemma quiz_start_not_multiple level num tbl s g :
  (num `mod` 5 ≠ 0)%Z →
  quiz_start POST level num tbl s g
  = Ok (Body "Please enter a number that is a multiple of 5.", s, g).
Proof.
  intros Hmod. unfold quiz_start. by rewrite bool_decide_eq_true_2.
Qed.

Lemma quiz_start_too_many level num tbl s g :
  (num `mod` 5 = 0)%Z →
  (Z.of_nat (length (select_level level tbl)) < num)%Z →
  quiz_start POST level num tbl s g
  = Ok (Body ("Not enough words! Max allowed: "
              +:+ str (Z.of_nat (length (select_level level tbl)))), s, g).
Proof.
  intros Hmod Hnum. unfold quiz_start.
  rewrite bool_decide_eq_false_2 by (intros Hne; by apply Hne).
  by rewrite bool_decide_eq_true_2.
Qed.

(** The words of an accepted start, read against the table. *)
Lemma sample_of_level level tbl ws rest :
  NoDup (v_id <$> tbl) →
  ws ++ rest ≡ₚ v_id <$> select_level level tbl →
  NoDup ws ∧ ∀ i, i ∈ ws → i ∈ v_id <$> select_level level tbl.
Proof.
  intros Hnd Hperm. split.
  - apply (select_level_ids_NoDup level) in Hnd.
    rewrite <-Hperm in Hnd. by apply NoDup_app in Hnd as [? _].
  - intros i Hi. rewrite <-Hperm. apply elem_of_app. by left.
Qed.

Lemma quiz_start_state level num tbl s g s' g' :
  NoDup (v_id <$> tbl) →
  (0 < num)%Z →
  quiz_start POST level num tbl s g
  = Ok (Redirect (url_quiz_question level), s', g') →
  ∃ ws, quiz_state tbl level ws 0 0 s' ∧ Z.of_nat (length ws) = num.
Proof.
  intros Hnd Hpos Hstart.
  destruct (decide (num `mod` 5 = 0)%Z) as [Hmod|Hmod];
    [|by rewrite quiz_start_not_multiple in Hstart].
  destruct (decide (Z.of_nat (length (select_level level tbl)) < num)%Z)
    as [Hmany|Hfew]; [by rewrite quiz_start_too_many in Hstart|].
  destruct (quiz_start_accepts level num tbl s g)
    as (ws & g1 & rest & Heq & Hlen & Hperm); [done|lia|].
  rewrite Heq in Hstart. injection Hstart as <- <-.
  destruct (sample_of_level level tbl ws rest) as [Hws Hin]; [done..|].
  exists ws. unfold quiz_state; simpl.
  replace (Z.of_nat (length ws)) with num by lia. by split_and!.
Qed.

(** *** The question page *)

Lemma filter_none {A} (P : A → Prop) `{!∀ x, Decision (P x)} (l : list A) :
  (∀ x, x ∈ l → ¬ P x) → filter P l = [].
Proof.
  induction l as [|a l IH]; intros Hnone; [done|].
  rewrite filter_cons_False by (apply Hnone; left).
  apply IH. intros x Hx. apply Hnone. by right.
Qed.

Lemma question_page_spec level ws current tbl g q :
  NoDup (v_id <$> tbl) →
  (0 ≤ current < Z.of_nat (length ws))%Z →
  ws !! Z.to_nat current = Some (v_id q) →
  q ∈ select_level level tbl →
  4 ≤ length (select_level level tbl) →
  ∃ opts g',
    question_page level ws current tbl g
    = Ok (quiz_question_html (Some q) (Some opts) level
            (Z.of_nat (length ws)) current None, g')
    ∧ question_options tbl level q opts.
Proof.
  intros Hnd Hcur Hq Hin Hsize. unfold question_page.
  destruct (py_index_inside ws current Hcur) as (i & -> & Hi).
  assert (i = v_id q) as -> by congruence. simpl.
  pose proof Hin as [Hlevel Htbl]%select_level_elem.
  rewrite (select_id_elem tbl q) by done.
  pose proof (select_level_ids_NoDup level tbl Hnd) as Hnd_level.
  pose proof (exclude_id_length (v_id q) _ Hnd_level) as Hothers.
  destruct (random_sample_spec
              (filter (λ v, v_id v ≠ v_id q) (select_level level tbl)) 3 g)
    as (ds & g1 & rest & -> & Hlen & Hds); [lia|]. simpl.
  destruct (random_shuffle_spec ((Some <$> ds) ++ [Some q]) g1)
    as (opts & g2 & -> & Hopts). simpl.
  exists opts, g2. split; [done|].
  assert (∀ d, d ∈ ds → d ∈ select_level level tbl ∧ v_id d ≠ v_id q)
    as Hds_in.
  { intros d Hd.
    assert (d ∈ ds ++ rest) as Hd' by (apply elem_of_app; by left).
    rewrite Hds in Hd'. apply list_elem_of_filter in Hd'. tauto. }
  assert (NoDup ds) as Hds_nd.
  { apply NoDup_fmap_1 in Hnd_level.
    apply (NoDup_filter (λ v, v_id v ≠ v_id q)) in Hnd_level.
    rewrite <-Hds in Hnd_level. by apply NoDup_app in Hnd_level as [? _]. }
  unfold question_options. split_and!.
  - rewrite Hopts, length_app, length_fmap, Hlen. simpl. lia.
  - rewrite Hopts. apply NoDup_app. split_and!.
    + by apply (NoDup_fmap_2 _).
    + intros o (d & -> & Hd)%list_elem_of_fmap Hq'.
      apply list_elem_of_singleton in Hq'. injection Hq' as ->.
      by destruct (Hds_in q Hd).
    + apply NoDup_singleton.
  - intros o Ho. rewrite Hopts in Ho.
    apply elem_of_app in Ho
      as [(d & -> & Hd)%list_elem_of_fmap | ->%list_elem_of_singleton].
    + destruct (Hds_in d Hd) as [[? ?]%select_level_elem _]. eauto.
    + eauto.
  - rewrite Hopts, filter_app, filter_cons_True, filter_nil by done.
    rewrite filter_none; [done|].
    intros o (d & -> & Hd)%list_elem_of_fmap Hq'. injection Hq' as ->.
    by destruct (Hds_in q Hd).
  - by exists ds.
Qed.

(** The order of the options is the outcome of the shuffle alone: three
    draws select the other rows, and whatever they selected, every
    arrangement of the four options is the page on some three further
    draws, each of them a value [randbelow] returns at its step. *)
Lemma question_page_orders level ws current tbl q g3 :
  NoDup (v_id <$> tbl) →
  (0 ≤ current < Z.of_nat (length ws))%Z →
  ws !! Z.to_nat current = Some (v_id q) →
  q ∈ select_level level tbl →
  4 ≤ length (select_level level tbl) →
  length g3 = 3 →
  ∃ ds,
    length ds = 3
    ∧ ∀ opts, opts ≡ₚ (Some <$> ds) ++ [Some q] →
      ∃ gs, length gs = 3
        ∧ (∀ k d, gs !! k = Some d → d + k ≤ 3)
        ∧ ∀ g', question_page level ws current tbl (g3 ++ gs ++ g')
                = Ok (quiz_question_html (Some q) (Some opts) level
                        (Z.of_nat (length ws)) current None, g').
Proof.
  intros Hnd Hcur Hq Hin Hsize Hg3.
  pose proof Hin as [Hlevel Htbl]%select_level_elem.
  pose proof (select_level_ids_NoDup level tbl Hnd) as Hnd_level.
  pose proof (exclude_id_length (v_id q) _ Hnd_level) as Hothers.
  destruct (random_sample_draws
              (filter (λ v, v_id v ≠ v_id q) (select_level level tbl)) 3 g3)
    as [ds Hds]; [lia | done |].
  assert (length ds = 3) as Hlen.
  { destruct (random_sample_spec
                (filter (λ v, v_id v ≠ v_id q) (select_level level tbl)) 3
                (g3 ++ []))
      as (ds' & g1 & rest & Heq & Hlen & _); [lia|].
    rewrite Hds in Heq. by injection Heq as -> _. }
  exists ds. split; [done|]. intros opts Hopts.
  destruct (random_shuffle_reaches ((Some <$> ds) ++ [Some q]) opts Hopts)
    as (gs & Hgs & Hbound & Hrun).
  rewrite length_app, length_fmap, Hlen in Hgs, Hbound. simpl in Hgs, Hbound.
  exists gs. split_and!; [done..|]. intros g'. unfold question_page.
  destruct (py_index_inside ws current Hcur) as (i & -> & Hi).
  assert (i = v_id q) as -> by congruence. simpl.
  rewrite (select_id_elem tbl q) by done.
  rewrite Hds. simpl. rewrite Hrun. done.
Qed.

(** Fewer than three rows of the level besides the target: the sampling
    raises, and no page is built. *)
Lemma question_page_ValueError level ws current tbl g i :
  py_index ws current = Ok i →
  length (filter (λ v, v_id v ≠ i) (select_level level tbl)) < 3 →
  question_page level ws current tbl g
  = Raise (ValueError "Sample larger than population or is negative").
Proof.
  intros Hi Hfew. unfold question_page. rewrite Hi. simpl.
  rewrite random_sample_ValueError by lia. done.
Qed.

Lemma quiz_state_target tbl level ws current correct s n i :
  quiz_state tbl level ws current correct s →
  ws !! n = Some i →
  ∃ q, q ∈ select_level level tbl ∧ v_id q = i.
Proof.
  intros (_ & _ & _ & _ & _ & _ & _ & _ & Hin) Hi.
  apply list_elem_of_lookup_2, Hin, list_elem_of_fmap in Hi as (q & -> & Hq).
  by exists q.
Qed.

Lemma quiz_state_page tbl level ws current correct s g :
  NoDup (v_id <$> tbl) →
  quiz_state tbl level ws current correct s →
  (0 ≤ current < Z.of_nat (length ws))%Z →
  ∃ q opts g',
    question_page level ws current tbl g
    = Ok (quiz_question_html (Some q) (Some opts) level
            (Z.of_nat (length ws)) current None, g')
    ∧ ws !! Z.to_nat current = Some (v_id q)
    ∧ question_options tbl level q opts.
Proof.
  intros Hnd Hs Hcur.
  destruct (lookup_lt_is_Some_2 ws (Z.to_nat current) ltac:(lia)) as [i Hi].
  destruct (quiz_state_target _ _ _ _ _ _ _ _ Hs Hi) as (q & Hq & <-).
  pose proof (quiz_state_level_size _ _ _ _ _ _ Hs) as Hsize.
  destruct (question_page_spec level ws current tbl g q)
    as (opts & g' & Hpage & Hopts); [done..|lia|].
  by exists q, opts, g'.
Qed.

(** C3. In a quiz in progress, for a request under the level the quiz
    was started on, at a position inside the word list: the page of
    [quiz_question], and the page [quiz_next] builds for the following
    position, carry the target row at that position and four options,
    pairwise distinct, all rows of the level, the target among them
    exactly once, the other three rows of the level with another id. The
    order of the four is random: whatever three rows the first three draws
    select, every arrangement of them and the target is the page for some
    three further draws. *)
Theorem quiz_question_options level tbl ws current correct s g :
  NoDup (v_id <$> tbl) →
  quiz_state tbl level ws current correct s →
  (0 ≤ current)%Z →
  ((current < Z.of_nat (length ws))%Z →
   ∃ q, ws !! Z.to_nat current = Some (v_id q)
     ∧ (∃ opts g',
          quiz_question level tbl s g
          = Ok (quiz_question_html (Some q) (Some opts) level
                  (Z.of_nat (length ws)) current None, g')
          ∧ question_options tbl level q opts)
     ∧ ∀ g3, length g3 = 3 →
       ∃ ds, length ds = 3
         ∧ ∀ opts, opts ≡ₚ (Some <$> ds) ++ [Some q] →
           ∃ gs, length gs = 3
             ∧ (∀ k d, gs !! k = Some d → d + k ≤ 3)
             ∧ ∀ g', quiz_question level tbl s (g3 ++ gs ++ g')
                     = Ok (quiz_question_html (Some q) (Some opts) level
                             (Z.of_nat (length ws)) current None, g'))
  ∧ ((current + 1 < Z.of_nat (length ws))%Z →
     ∃ q s', ws !! Z.to_nat (current + 1) = Some (v_id q)
       ∧ (∃ opts g',
            quiz_next level tbl s g
            = Ok (quiz_question_html (Some q) (Some opts) level
                    (Z.of_nat (length ws)) (current + 1) None, s', g')
            ∧ question_options tbl level q opts)
       ∧ ∀ g3, length g3 = 3 →
         ∃ ds, length ds = 3
           ∧ ∀ opts, opts ≡ₚ (Some <$> ds) ++ [Some q] →
             ∃ gs, length gs = 3
               ∧ (∀ k d, gs !! k = Some d → d + k ≤ 3)
               ∧ ∀ g', quiz_next level tbl s (g3 ++ gs ++ g')
                       = Ok (quiz_question_html (Some q) (Some opts) level
                               (Z.of_nat (length ws)) (current + 1) None,
                             s', g')).
Proof.
  intros Hnd Hs Hcur. pose proof Hs as (Hws & Hc & Hk & Hrest).
  pose proof (quiz_state_level_size _ _ _ _ _ _ Hs) as Hsize.
  assert (∀ n, (0 ≤ n < Z.of_nat (length ws))%Z →
            ∃ q, ws !! Z.to_nat n = Some (v_id q)
                 ∧ q ∈ select_level level tbl) as Htarget.
  { intros n Hn.
    destruct (lookup_lt_is_Some_2 ws (Z.to_nat n) ltac:(lia)) as [i Hi].
    destruct (quiz_state_target _ _ _ _ _ _ _ _ Hs Hi) as (q & Hq & <-).
    by exists q. }
  split.
  - intros Hlt. destruct (Htarget current ltac:(lia)) as (q & Hq & Hin).
    exists q. split; [done|].
    unfold quiz_question. rewrite Hws, Hc. simpl.
    rewrite bool_decide_eq_false_2 by (intros ->; simpl in Hlt; lia).
    rewrite bool_decide_eq_false_2 by lia.
    split.
    + apply (question_page_spec level ws current tbl g q); [done|lia|done..|lia].
    + intros g3 Hg3.
      apply (question_page_orders level ws current tbl q g3);
        [done|lia|done..|lia|done].
  - intros Hlt. destruct (Htarget (current + 1)%Z ltac:(lia)) as (q & Hq & Hin).
    exists q, (set_quiz_current (current + 1) s). split; [done|].
    unfold quiz_next. rewrite Hc. simpl. rewrite Hws. simpl.
    rewrite bool_decide_eq_false_2 by lia.
    split.
    + destruct (question_page_spec level ws (current + 1) tbl g q)
        as (opts & g' & -> & Hopts); [done|lia|done..|lia|]. simpl.
      by exists opts, g'.
    + intros g3 Hg3.
      destruct (question_page_orders level ws (current + 1) tbl q g3)
        as (ds & Hlen & Hall); [done|lia|done..|lia|done|].
      exists ds. split; [done|]. intros opts Hopts.
      destruct (Hall opts Hopts) as (gs & Hgs & Hbound & Hrun).
      exists gs. split_and!; [done..|]. intros g'. by rewrite Hrun.
Qed.

(** C4. [quiz_submit] in a quiz in progress: a right answer adds one to
    [quiz_correct] and the feedback is "Correct!"; a wrong answer leaves
    [quiz_correct] as it was and the feedback names the [hanzi] of the row
    [correct_id]; neither moves [quiz_current]. *)
Theorem quiz_submit_counts level answer_id correct_id tbl s correct :
  quiz_correct s = Some correct →
  (answer_id = correct_id →
   ∃ s', quiz_submit level answer_id correct_id tbl s
         = Ok (Redirect (url_quiz_feedback level), s')
         ∧ quiz_correct s' = Some (correct + 1)%Z
         ∧ quiz_feedback s' = Some "Correct!"
         ∧ quiz_current s' = quiz_current s)
  ∧ (answer_id ≠ correct_id →
     ∀ w, select_id correct_id tbl = Some w →
     ∃ s', quiz_submit level answer_id correct_id tbl s
           = Ok (Redirect (url_quiz_feedback level), s')
           ∧ quiz_correct s' = Some correct
           ∧ quiz_feedback s' = Some ("Wrong! Correct answer: " +:+ v_hanzi w)
           ∧ quiz_current s' = quiz_current s).
Proof.
  intros Hk. unfold quiz_submit. split.
  - intros Heq. rewrite bool_decide_eq_true_2, Hk by done. simpl. eauto.
  - intros Hne w Hw. rewrite bool_decide_eq_false_2, Hw by done. simpl. eauto.
Qed.

(** *** Sequences of requests *)

Lemma quiz_submit_state tbl level ws current correct s answer_id correct_id :
  quiz_state tbl level ws current correct s →
  answerable tbl (Submit answer_id correct_id) →
  ∃ s', quiz_submit level answer_id correct_id tbl s
        = Ok (Redirect (url_quiz_feedback level), s')
        ∧ quiz_state tbl level ws current
            (correct + if bool_decide (answer_id = correct_id) then 1 else 0)
            s'.
Proof.
  intros (Hws & Hc & Hk & Hl & Ht & Hrest) [w Hw]. unfold quiz_submit.
  case_bool_decide.
  - rewrite Hk. simpl. eexists. split; [done|]. by unfold quiz_state.
  - rewrite Hw. simpl. eexists. split; [done|].
    rewrite Z.add_0_r. by unfold quiz_state.
Qed.

Lemma quiz_next_state tbl level ws current correct s g :
  NoDup (v_id <$> tbl) →
  quiz_state tbl level ws current correct s →
  (0 ≤ current)%Z →
  ∃ r s' g',
    quiz_next level tbl s g = Ok (r, s', g')
    ∧ quiz_state tbl level ws (current + 1) correct s'
    ∧ ((Z.of_nat (length ws) ≤ current + 1)%Z →
       r = Redirect (url_quiz_result level) ∧ g' = g).
Proof.
  intros Hnd Hs Hcur. pose proof Hs as (Hws & Hc & Hk & Hl & Ht & Hrest).
  assert (quiz_state tbl level ws (current + 1) correct
            (set_quiz_current (current + 1) s)) as Hs'
    by by unfold quiz_state.
  unfold quiz_next. rewrite Hc. simpl. rewrite Hws. simpl.
  case_bool_decide as Hend.
  - by eexists _, _, _.
  - destruct (quiz_state_page tbl level ws (current + 1) correct
                (set_quiz_current (current + 1) s) g)
      as (q & opts & g' & -> & _); [done..|lia|]. simpl.
    eexists _, _, _. split_and!; [done..|lia].
Qed.

Lemma advances_cons c cs :
  advances (c :: cs)
  = ((if bool_decide (c = Next) then 1 else 0) + advances cs)%Z.
Proof.
  unfold advances. rewrite filter_cons.
  case_decide; case_bool_decide; simpl; try done; lia.
Qed.

Lemma right_answers_cons c cs :
  right_answers (c :: cs)
  = ((if is_right c then 1 else 0) + right_answers cs)%Z.
Proof.
  unfold right_answers. rewrite filter_cons.
  case_decide as Hc; destruct (is_right c); simpl in *; try done; lia.
Qed.

Lemma advances_nonneg cs : (0 ≤ advances cs)%Z.
Proof. unfold advances. lia. Qed.

Lemma right_answers_nonneg cs : (0 ≤ right_answers cs)%Z.
Proof. unfold right_answers. lia. Qed.

(** A sequence of requests on a quiz never fails; it leaves the position
    at the number of [quiz_next] requests and the counter at the number of
    right answers. *)
Lemma run_state tbl level ws cs : ∀ current correct s g,
  NoDup (v_id <$> tbl) →
  quiz_state tbl level ws current correct s →
  (0 ≤ current)%Z →
  Forall (answerable tbl) cs →
  ∃ s' g',
    run level tbl cs s g = Ok (s', g')
    ∧ quiz_state tbl level ws (current + advances cs)
        (correct + right_answers cs) s'.
Proof.
  induction cs as [|c cs IH]; intros current correct s g Hnd Hs Hcur Hcs.
  - exists s, g. split; [done|].
    unfold advances, right_answers. simpl. by rewrite !Z.add_0_r.
  - apply Forall_cons in Hcs as [Hc Hcs].
    rewrite advances_cons, right_answers_cons.
    destruct c as [answer_id correct_id|]; simpl.
    + destruct (quiz_submit_state _ _ _ _ _ _ answer_id correct_id Hs Hc)
        as (s1 & -> & Hs1). simpl.
      destruct (IH _ _ s1 g Hnd Hs1 Hcur Hcs) as (s' & g' & -> & Hs').
      exists s', g'. split; [done|]. by rewrite Z.add_0_l, Z.add_assoc.
    + destruct (quiz_next_state _ _ _ _ _ s g Hnd Hs Hcur)
        as (r & s1 & g1 & -> & Hs1 & _). simpl.
      destruct (IH _ _ s1 g1 Hnd Hs1 ltac:(lia) Hcs) as (s' & g' & -> & Hs').
      exists s', g'. split; [done|]. by rewrite Z.add_0_l, Z.add_assoc.
Qed.

Lemma awaiting_next_cons c c' cs :
  awaiting_next (c :: c' :: cs) = awaiting_next (c' :: cs).
Proof. done. Qed.

Lemma in_order_counts cs : ∀ ph left,
  in_order ph left cs = true →
  (advances cs ≤ Z.of_nat left)%Z
  ∧ match ph with
    | IN_PROGRESS =>
        (right_answers cs
         ≤ advances cs + if awaiting_next cs then 1 else 0)%Z
    | AWAITING_NEXT =>
        cs = [] ∨ (right_answers cs + 1
                   ≤ advances cs + if awaiting_next cs then 1 else 0)%Z
    | COMPLETED => cs = []
    end.
Proof.
  induction cs as [|c cs IH]; intros ph left Hord.
  { split; [unfold advances; simpl; lia|].
    destruct ph; auto. unfold advances, right_answers. simpl. lia. }
  rewrite advances_cons, right_answers_cons.
  destruct c as [answer_id correct_id|], ph; simpl in Hord; try done.
  - apply IH in Hord as [Hadv Hright].
    rewrite bool_decide_eq_false_2 by done.
    generalize (is_right (Submit answer_id correct_id)). intros r.
    split; [lia|].
    destruct Hright as [->|Hright].
    + unfold advances, right_answers. simpl. destruct r; lia.
    + destruct cs as [|c' cs].
      * unfold advances, right_answers in *. simpl in *. destruct r; lia.
      * rewrite awaiting_next_cons. destruct r; lia.
  - rewrite bool_decide_eq_true_2 by done. simpl is_right. cbv iota.
    destruct left as [|[|left]]; [done|..]; apply IH in Hord as [Hadv Hright].
    + subst cs. split; [unfold advances; simpl; lia|]. right.
      unfold advances, right_answers. simpl. lia.
    + split; [lia|]. right.
      destruct cs as [|c' cs].
      * unfold advances, right_answers. simpl. lia.
      * rewrite awaiting_next_cons. lia.
Qed.

(** C2, as the handlers have it. On a quiz started by [quiz_start] and
    driven in order (one answer per question, then [quiz_next]), no request
    fails; the counter is between 0 and the position plus one, the position
    between 0 and the number of questions; and whenever the last answer has
    been followed by its [quiz_next], the counter is at most the position. *)
Theorem quiz_counters_in_order level num tbl s0 g0 s1 g1 cs g :
  NoDup (v_id <$> tbl) →
  (0 < num)%Z →
  quiz_start POST level num tbl s0 g0
  = Ok (Redirect (url_quiz_question level), s1, g1) →
  in_order IN_PROGRESS (Z.to_nat num) cs = true →
  Forall (answerable tbl) cs →
  ∃ s2 g2 current correct,
    run level tbl cs s1 g = Ok (s2, g2)
    ∧ quiz_current s2 = Some current
    ∧ quiz_correct s2 = Some correct
    ∧ quiz_total s2 = Some num
    ∧ (0 ≤ correct ≤ current + 1)%Z
    ∧ (0 ≤ current ≤ num)%Z
    ∧ (awaiting_next cs = false → (correct ≤ current)%Z).
Proof.
  intros Hnd Hpos Hstart Hord Hcs.
  destruct (quiz_start_state _ _ _ _ _ _ _ Hnd Hpos Hstart) as (ws & Hs1 & Hlen).
  destruct (run_state tbl level ws cs 0 0 s1 g Hnd Hs1 ltac:(done) Hcs)
    as (s2 & g2 & Hrun & Hs2).
  destruct Hs2 as (_ & Hc & Hk & _ & Ht & _).
  apply in_order_counts in Hord as [Hadv Hright].
  pose proof (advances_nonneg cs). pose proof (right_answers_nonneg cs).
  exists s2, g2, (0 + advances cs)%Z, (0 + right_answers cs)%Z.
  rewrite Hlen in Ht. split_and!; try done; try lia.
  - destruct (awaiting_next cs); lia.
  - intros Hlast. rewrite Hlast in Hright. lia.
Qed.

(** C5. On a quiz started by [quiz_start], after any sequence of answers
    and [quiz_next] requests: one more [quiz_next] puts the position up by
    exactly one, and answers with the redirect to the result when that
    makes [num] of them. Once [num] of them were made, [quiz_question]
    redirects to the result; [quiz_result] shows [num] and the number of
    right answers and removes every quiz key, after which [quiz_question]
    redirects to the start of a quiz. *)
Theorem quiz_completion level num tbl s0 g0 s1 g1 cs g :
  NoDup (v_id <$> tbl) →
  (0 < num)%Z →
  quiz_start POST level num tbl s0 g0
  = Ok (Redirect (url_quiz_question level), s1, g1) →
  Forall (answerable tbl) cs →
  ∃ s2 g2,
    run level tbl cs s1 g = Ok (s2, g2)
    ∧ quiz_current s2 = Some (advances cs)
    ∧ (∃ r s3 g3,
         quiz_next level tbl s2 g2 = Ok (r, s3, g3)
         ∧ quiz_current s3 = Some (advances cs + 1)%Z
         ∧ ((advances cs + 1)%Z = num →
            r = Redirect (url_quiz_result level)))
    ∧ (advances cs = num →
       quiz_question level tbl s2 g2
       = Ok (Redirect (url_quiz_result level), g2)
       ∧ ∃ s3,
           quiz_result level s2
           = (quiz_result_html num (right_answers cs) level, s3)
           ∧ no_quiz s3
           ∧ user_id s3 = user_id s2
           ∧ quiz_question level tbl s3 g2
             = Ok (Redirect (url_quiz level), g2)).
Proof.
  intros Hnd Hpos Hstart Hcs.
  destruct (quiz_start_state _ _ _ _ _ _ _ Hnd Hpos Hstart) as (ws & Hs1 & Hlen).
  destruct (run_state tbl level ws cs 0 0 s1 g Hnd Hs1 ltac:(done) Hcs)
    as (s2 & g2 & Hrun & Hs2).
  rewrite !Z.add_0_l in Hs2.
  pose proof (advances_nonneg cs) as Hadv.
  exists s2, g2. split_and!; [done|by destruct Hs2 as (_ & ? & _)|..].
  - destruct (quiz_next_state _ _ _ _ _ s2 g2 Hnd Hs2 Hadv)
      as (r & s3 & g3 & Hnext & Hs3 & Hend).
    exists r, s3, g3. split_and!; [done|by destruct Hs3 as (_ & ? & _)|].
    intros Hlast. apply Hend. lia.
  - intros Hall. destruct Hs2 as (Hws & Hc & Hk & _ & Ht & _). split.
    + unfold quiz_question. rewrite Hws, Hc. simpl.
      rewrite bool_decide_eq_false_2
        by (intros ->; simpl in Hlen; lia).
      by rewrite bool_decide_eq_true_2 by lia.
    + eexists. unfold quiz_result. rewrite Ht, Hk, Hlen. simpl.
      split_and!; [done|by unfold no_quiz|done|done].
Qed.

(** C6. [quiz_start] on a positive multiple of 5 within the size of the
    level stores a word list of exactly that many identifiers, without
    repetition, each the id of a row of the level, with the position and
    the counter at 0. *)
Theorem quiz_start_word_sequence level num tbl s g :
  NoDup (v_id <$> tbl) →
  (0 < num)%Z →
  (num `mod` 5 = 0)%Z →
  (num ≤ Z.of_nat (length (select_level level tbl)))%Z →
  ∃ ws s' g',
    quiz_start POST level num tbl s g
    = Ok (Redirect (url_quiz_question level), s', g')
    ∧ quiz_words s' = Some ws
    ∧ Z.of_nat (length ws) = num
    ∧ NoDup ws
    ∧ (∀ i, i ∈ ws → ∃ v, v ∈ tbl ∧ at_level level v ∧ v_id v = i)
    ∧ quiz_current s' = Some 0%Z
    ∧ quiz_correct s' = Some 0%Z
    ∧ quiz_level s' = Some level
    ∧ quiz_total s' = Some num.
Proof.
  intros Hnd Hpos Hmod Hnum.
  destruct (quiz_start_accepts level num tbl s g)
    as (ws & g' & rest & Heq & Hlen & Hperm); [done|lia|].
  destruct (sample_of_level level tbl ws rest) as [Hws Hin]; [done..|].
  eexists ws, _, g'. split; [exact Heq|]. simpl.
  split_and!; try done; [lia|].
  intros i (v & -> & [? ?]%select_level_elem)%Hin%list_elem_of_fmap. eauto.
Qed.

(** C1, as the handler has it. For a positive [num], [quiz_start] refuses
    exactly when [num] is not a multiple of 5 or is above the number of
    rows of the level. A [num] that is not a multiple of 5 is answered by
    the request for a multiple of 5, which names no maximum; a multiple of
    5 above the number of rows by the message that ends in that number;
    every other positive [num] starts the quiz. *)
Theorem quiz_start_size_check level num tbl s g :
  (0 < num)%Z →
  let n := Z.of_nat (length (select_level level tbl)) in
  let r := quiz_start POST level num tbl s g in
  (refused r = true ↔ (num `mod` 5 ≠ 0)%Z ∨ (n < num)%Z)
  ∧ ((num `mod` 5 ≠ 0)%Z →
     r = Ok (Body "Please enter a number that is a multiple of 5.", s, g))
  ∧ ((num `mod` 5 = 0)%Z → (n < num)%Z →
     r = Ok (Body ("Not enough words! Max allowed: " +:+ str n), s, g))
  ∧ ((num `mod` 5 = 0)%Z → (num ≤ n)%Z →
     ∃ s' g', r = Ok (Redirect (url_quiz_question level), s', g')).
Proof.
  intros Hpos n r. subst n r.
  destruct (decide (num `mod` 5 = 0)%Z) as [Hmod|Hmod].
  - destruct (decide (Z.of_nat (length (select_level level tbl)) < num)%Z)
      as [Hmany|Hfew].
    + rewrite quiz_start_too_many by done. simpl.
      split_and!; [tauto|done|done|lia].
    + destruct (quiz_start_accepts level num tbl s g)
        as (ws & g' & rest & -> & _); [done|lia|]. simpl.
      split_and!; [|done|lia|eauto]. split; [done|]. intros [?|?]; [done|lia].
  - rewrite quiz_start_not_multiple by done. simpl.
    split_and!; [tauto|done|done|done].
Qed.

(** C7, as the handler has it. When fewer than three rows of the level
    have another id than the target, as when the level has fewer than four
    rows and the target is one of them, [quiz_question] lets the
    [ValueError] of the sampling escape: it has no check of its own. *)
Theorem quiz_question_few_rows level tbl s g ws current i :
  quiz_words s = Some ws →
  quiz_current s = Some current →
  (0 ≤ current < Z.of_nat (length ws))%Z →
  ws !! Z.to_nat current = Some i →
  (length (filter (λ v, v_id v ≠ i) (select_level level tbl)) < 3 →
   quiz_question level tbl s g
   = Raise (ValueError "Sample larger than population or is negative"))
  ∧ (length (select_level level tbl) < 4 →
     i ∈ v_id <$> select_level level tbl →
     quiz_question level tbl s g
     = Raise (ValueError "Sample larger than population or is negative")).
Proof.
  intros Hws Hc Hcur Hi.
  assert (length (filter (λ v, v_id v ≠ i) (select_level level tbl)) < 3 →
          quiz_question level tbl s g
          = Raise (ValueError "Sample larger than population or is negative"))
    as Hfew.
  { intros Hfew. unfold quiz_question. rewrite Hws, Hc. simpl.
    rewrite bool_decide_eq_false_2 by (intros ->; simpl in Hcur; lia).
    rewrite bool_decide_eq_false_2 by lia.
    destruct (py_index_inside ws current Hcur) as (i' & Hidx & Hi').
    assert (i' = i) as -> by congruence.
    by apply (question_page_ValueError _ _ _ _ _ i). }
  split; [done|]. intros Hsize (q & -> & Hq)%list_elem_of_fmap.
  apply Hfew.
  pose proof (length_filter_lt (λ v, v_id v ≠ v_id q) _ q Hq) as Hlt.
  specialize (Hlt ltac:(by intros Hne)). lia.
Qed.

(** C10. With no quiz in the session, [quiz_next] raises [KeyError] on
    [quiz_current], and [quiz_submit] of a right answer raises [KeyError]
    on [quiz_correct]; [quiz_question] redirects to the start of a quiz. *)
Theorem no_quiz_KeyError level tbl s g :
  no_quiz s →
  quiz_next level tbl s g = Raise (KeyError "quiz_current")
  ∧ (∀ answer_id,
       quiz_submit level answer_id answer_id tbl s
       = Raise (KeyError "quiz_correct"))
  ∧ quiz_question level tbl s g = Ok (Redirect (url_quiz level), g).
Proof.
  intros (Hws & Hc & Hk & _). split_and!.
  - unfold quiz_next. by rewrite Hc.
  - intros answer_id. unfold quiz_submit.
    by rewrite bool_decide_eq_true_2, Hk.
  - unfold quiz_question. by rewrite Hws.
Qed.

(** ** The statements on the sample data *)

Lemma three_levels_ids : NoDup (v_id <$> three_levels).
Proof. compute_done. Defined.

Lemma started_by_quiz_start :
  quiz_start POST 2 5 three_levels no_session []
  = Ok (Redirect (url_quiz_question 2), started, []).
Proof. reflexivity. Defined.

Lemma started_state : quiz_state three_levels 2 [3; 7; 6; 5; 4]%Z 0 0 started.
Proof.
  unfold quiz_state. simpl. split_and!; try done.
  - compute_done.
  - apply Forall_forall. compute_done.
Defined.

(** With twelve rows in level 1: 10 is accepted, 15 is refused with the
    maximum 12, 7 is refused. *)
Example quiz_start_scenario s g :
  (∃ s' g', quiz_start POST 1 10 level_of_12 s g
            = Ok (Redirect (url_quiz_question 1), s', g'))
  ∧ quiz_start POST 1 15 level_of_12 s g
    = Ok (Body "Not enough words! Max allowed: 12", s, g)
  ∧ quiz_start POST 1 7 level_of_12 s g
    = Ok (Body "Please enter a number that is a multiple of 5.", s, g).
Proof.
  split_and!.
  - destruct (quiz_start_accepts 1 10 level_of_12 s g)
      as (ws & g' & rest & -> & _); [done|by vm_compute|]. eauto.
  - by rewrite quiz_start_too_many.
  - by rewrite quiz_start_not_multiple.
Qed.

(** A count of 0 starts a quiz without words, and a negative multiple of
    5 reaches the sampling, which raises. *)
Example quiz_start_not_positive :
  quiz_start POST 1 0 level_of_12 no_session []
  = Ok (Redirect (url_quiz_question 1),
        {| user_id := None; quiz_words := Some []; quiz_current := Some 0%Z;
           quiz_correct := Some 0%Z; quiz_level := Some 1%Z;
           quiz_total := Some 0%Z; quiz_feedback := None |}, [])
  ∧ quiz_start POST 1 (-5) level_of_12 no_session []
    = Raise (ValueError "Sample larger than population or is negative").
Proof. split; reflexivity. Qed.

(** C1 as stated fails: with twelve rows in level 1, the refusal of 7
    names no maximum, and 0, which is not a positive multiple of 5, is not
    refused. *)
Lemma quiz_start_refusal_without_maximum :
  quiz_start POST 1 7 level_of_12 no_session []
  = Ok (Body "Please enter a number that is a multiple of 5.", no_session, [])
  ∧ index 0 (str 12) "Please enter a number that is a multiple of 5." = None
  ∧ refused (quiz_start POST 1 0 level_of_12 no_session []) = false.
Proof. split_and!; reflexivity. Qed.

Lemma quiz_start_size_check_witness :
  (0 < 15)%Z
  ∧ quiz_start POST 1 15 level_of_12 no_session []
    = Ok (Body "Not enough words! Max allowed: 12", no_session, []).
Proof.
  split; [lia|].
  apply (quiz_start_size_check 1 15 level_of_12 no_session []);
    [lia | reflexivity | vm_compute; reflexivity].
Defined.

(** C2 as stated fails: after [quiz_start] for five words, a right answer
    to the first question leaves the counter at 1 above the position 0;
    and six [quiz_next] requests leave the position at 6 above the 5
    questions. *)
Lemma counter_above_position :
  quiz_start POST 2 5 three_levels no_session []
  = Ok (Redirect (url_quiz_question 2), started, [])
  ∧ (∃ s g, run 2 three_levels [Submit 3 3] started [] = Ok (s, g)
            ∧ quiz_correct s = Some 1%Z ∧ quiz_current s = Some 0%Z)
  ∧ (∃ s g, run 2 three_levels [Next; Next; Next; Next; Next; Next]
              started [] = Ok (s, g)
            ∧ quiz_current s = Some 6%Z ∧ quiz_total s = Some 5%Z).
Proof.
  split_and!; [reflexivity|..]; eexists _, _; split_and!; reflexivity.
Qed.

Lemma quiz_counters_in_order_witness :
  NoDup (v_id <$> three_levels)
  ∧ (0 < 5)%Z
  ∧ quiz_start POST 2 5 three_levels no_session []
    = Ok (Redirect (url_quiz_question 2), started, [])
  ∧ in_order IN_PROGRESS (Z.to_nat 5)
      [Submit 3 3; Next; Submit 4 7; Next; Submit 6 6] = true
  ∧ Forall (answerable three_levels)
      [Submit 3 3; Next; Submit 4 7; Next; Submit 6 6]
  ∧ ∃ s2 g2 current correct,
      run 2 three_levels [Submit 3 3; Next; Submit 4 7; Next; Submit 6 6]
        started [] = Ok (s2, g2)
      ∧ quiz_current s2 = Some current
      ∧ quiz_correct s2 = Some correct
      ∧ (0 ≤ correct ≤ current + 1)%Z
      ∧ (0 ≤ current ≤ 5)%Z.
Proof.
  assert (Forall (answerable three_levels)
            [Submit 3 3; Next; Submit 4 7; Next; Submit 6 6]) as Hcs.
  { repeat constructor; vm_compute; eauto. }
  split_and!; [apply three_levels_ids | lia | reflexivity | reflexivity
              | exact Hcs |].
  destruct (quiz_counters_in_order 2 5 three_levels no_session [] started []
              [Submit 3 3; Next; Submit 4 7; Next; Submit 6 6] []
              three_levels_ids ltac:(lia) started_by_quiz_start
              eq_refl Hcs)
    as (s2 & g2 & current & correct & Hrun & Hc & Hk & _ & Hk' & Hc' & _).
  by exists s2, g2, current, correct.
Defined.

(** C3 as stated fails: the handlers take the level from the URL and do
    not read [quiz_level]. Asked for under level 3, the first question of
    the quiz started on level 2 has the row 3 of level 2 as its target,
    among three rows of level 3: not all four options are rows of the
    requested level, and the other three are not rows of the level of the
    target. *)
Lemma quiz_question_mixes_levels :
  quiz_start POST 2 5 three_levels no_session []
  = Ok (Redirect (url_quiz_question 2), started, [])
  ∧ quiz_question 3 three_levels started []
    = Ok (quiz_question_html (Some (word 3 "2"))
            (Some [Some (word 10 "3"); Some (word 9 "3"); Some (word 3 "2");
                   Some (word 8 "3")]) 3 5 0 None, [])
  ∧ ¬ at_level 3 (word 3 "2")
  ∧ ¬ at_level 2 (word 10 "3")
  ∧ ¬ (∀ o, o ∈ [Some (word 10 "3"); Some (word 9 "3"); Some (word 3 "2");
                 Some (word 8 "3")] →
            ∃ v, o = Some v ∧ v ∈ three_levels ∧ at_level 3 v).
Proof.
  split_and!; [reflexivity | reflexivity | by vm_compute | by vm_compute |].
  intros Hall.
  destruct (Hall (Some (word 3 "2"))) as (v & Hv & _ & Hlevel).
  - set_solver.
  - injection Hv as <-. by vm_compute in Hlevel.
Qed.

Lemma quiz_question_options_witness :
  NoDup (v_id <$> three_levels)
  ∧ quiz_state three_levels 2 [3; 7; 6; 5; 4]%Z 0 0 started
  ∧ (0 ≤ 0)%Z
  ∧ ∃ q, v_id q = 3%Z
      ∧ (∃ opts g',
           quiz_question 2 three_levels started []
           = Ok (quiz_question_html (Some q) (Some opts) 2 5 0 None, g')
           ∧ question_options three_levels 2 q opts)
      ∧ ∃ ds, length ds = 3
          ∧ ∃ gs, length gs = 3
              ∧ quiz_question 2 three_levels started ([0; 0; 0] ++ gs ++ [])
                = Ok (quiz_question_html (Some q)
                        (Some ([Some q] ++ (Some <$> ds))) 2 5 0 None, []).
Proof.
  split_and!; [apply three_levels_ids | apply started_state | lia |].
  destruct (quiz_question_options 2 three_levels [3; 7; 6; 5; 4]%Z 0 0
              started [] three_levels_ids started_state ltac:(lia))
    as [Hpage _].
  destruct (Hpage ltac:(simpl; lia)) as (q & Hq & Hopts & Horders).
  exists q. split; [simpl in Hq; congruence|]. split; [exact Hopts|].
  destruct (Horders [0; 0; 0] eq_refl) as (ds & Hlen & Hall).
  exists ds. split; [done|].
  destruct (Hall ([Some q] ++ (Some <$> ds))) as (gs & Hgs & _ & Hrun).
  { apply Permutation_app_comm. }
  exists gs. split; [done|]. apply Hrun.
Defined.

Lemma quiz_submit_counts_witness :
  quiz_correct started = Some 0%Z
  ∧ (∃ s', quiz_submit 2 3 3 three_levels started
           = Ok (Redirect (url_quiz_feedback 2), s')
           ∧ quiz_correct s' = Some 1%Z
           ∧ quiz_feedback s' = Some "Correct!"
           ∧ quiz_current s' = Some 0%Z)
  ∧ (∃ s', quiz_submit 2 4 3 three_levels started
           = Ok (Redirect (url_quiz_feedback 2), s')
           ∧ quiz_correct s' = Some 0%Z
           ∧ quiz_feedback s' = Some "Wrong! Correct answer: w3"
           ∧ quiz_current s' = Some 0%Z).
Proof.
  split; [reflexivity|].
  split.
  - apply (quiz_submit_counts 2 3 3 three_levels started 0 eq_refl).
    reflexivity.
  - apply (proj2 (quiz_submit_counts 2 4 3 three_levels started 0 eq_refl)
             ltac:(done) (word 3 "2")).
    reflexivity.
Defined.

Lemma quiz_completion_witness :
  NoDup (v_id <$> three_levels)
  ∧ (0 < 5)%Z
  ∧ quiz_start POST 2 5 three_levels no_session []
    = Ok (Redirect (url_quiz_question 2), started, [])
  ∧ Forall (answerable three_levels)
      [Submit 3 3; Next; Next; Submit 6 3; Next; Next; Submit 4 4; Next]
  ∧ ∃ s2 g2 s3,
      run 2 three_levels
        [Submit 3 3; Next; Next; Submit 6 3; Next; Next; Submit 4 4; Next]
        started [] = Ok (s2, g2)
      ∧ quiz_question 2 three_levels s2 g2
        = Ok (Redirect (url_quiz_result 2), g2)
      ∧ quiz_result 2 s2 = (quiz_result_html 5 2 2, s3)
      ∧ no_quiz s3
      ∧ quiz_question 2 three_levels s3 g2 = Ok (Redirect (url_quiz 2), g2).
Proof.
  assert (Forall (answerable three_levels)
            [Submit 3 3; Next; Next; Submit 6 3; Next; Next; Submit 4 4; Next])
    as Hcs.
  { repeat constructor; vm_compute; eauto. }
  split_and!; [apply three_levels_ids | lia | reflexivity | exact Hcs |].
  destruct (quiz_completion 2 5 three_levels no_session [] started []
              [Submit 3 3; Next; Next; Submit 6 3; Next; Next; Submit 4 4; Next]
              [] three_levels_ids ltac:(lia) started_by_quiz_start Hcs)
    as (s2 & g2 & Hrun & _ & _ & Hdone).
  destruct (Hdone eq_refl) as (Hq & s3 & Hres & Hnone & _ & Hq').
  by exists s2, g2, s3.
Defined.

Lemma quiz_start_word_sequence_witness :
  NoDup (v_id <$> three_levels)
  ∧ (0 < 5)%Z
  ∧ (5 `mod` 5 = 0)%Z
  ∧ (5 ≤ Z.of_nat (length (select_level 2 three_levels)))%Z
  ∧ ∃ ws s' g',
      quiz_start POST 2 5 three_levels no_session [2; 0; 1; 1]
      = Ok (Redirect (url_quiz_question 2), s', g')
      ∧ quiz_words s' = Some ws
      ∧ Z.of_nat (length ws) = 5%Z
      ∧ NoDup ws
      ∧ quiz_current s' = Some 0%Z
      ∧ quiz_correct s' = Some 0%Z.
Proof.
  split_and!; [apply three_levels_ids | lia | reflexivity
              | vm_compute; discriminate |].
  destruct (quiz_start_word_sequence 2 5 three_levels no_session [2; 0; 1; 1]
              three_levels_ids ltac:(lia) eq_refl
              ltac:(vm_compute; discriminate))
    as (ws & s' & g' & Heq & Hws & Hlen & Hnd & _ & Hc & Hk & _).
  by exists ws, s', g'.
Defined.

(** C7 as stated fails. The quiz [started] on level 2 asks for row 3
    first. With rows 3 and 4 the only rows left in the level, the question
    ends in the [ValueError] of the sampling, and no response is made; with
    rows 5, 6 and 7 the only rows left, fewer than four, the request does
    not fail: a page is served, without a target. *)
Lemma quiz_question_unchecked :
  quiz_question 2 two_left started []
  = Raise (ValueError "Sample larger than population or is negative")
  ∧ length (select_level 2 three_left) = 3
  ∧ ∃ opts,
      quiz_question 2 three_left started []
      = Ok (quiz_question_html None (Some opts) 2 5 0 None, []).
Proof. split_and!; [reflexivity..|]. eexists. reflexivity. Qed.

Lemma quiz_question_few_rows_witness :
  quiz_words started = Some [3; 7; 6; 5; 4]%Z
  ∧ quiz_current started = Some 0%Z
  ∧ (0 ≤ 0 < Z.of_nat (length [3; 7; 6; 5; 4]%Z))%Z
  ∧ [3; 7; 6; 5; 4]%Z !! Z.to_nat 0 = Some 3%Z
  ∧ length (select_level 2 two_left) < 4
  ∧ 3%Z ∈ v_id <$> select_level 2 two_left
  ∧ quiz_question 2 two_left started []
    = Raise (ValueError "Sample larger than population or is negative").
Proof.
  split; [reflexivity|]. split; [reflexivity|]. split; [simpl; lia|].
  split; [reflexivity|]. split; [vm_compute; lia|].
  split; [compute_done|].
  apply (proj2 (quiz_question_few_rows 2 two_left started []
                  [3; 7; 6; 5; 4]%Z 0 3 eq_refl eq_refl
                  ltac:(simpl; lia) eq_refl)).
  - vm_compute. lia.
  - compute_done.
Defined.

Lemma flashcards_navigation_witness :
  let req := {| method := GET; form_learned := None;
                args_next := Some 3%Z; args_prev := None |} in
  let db := {| vocabulary := three_levels; progress := [] |} in
  method req = GET
  ∧ ∃ vocab prev_id next_id,
      flashcards req 2 no_session db
      = (flashcards_html vocab 2 prev_id next_id, db)
      ∧ least_by_id (λ v, at_level 2 v ∧ (3 < v_id v)%Z) three_levels vocab.
Proof.
  intros req db. split; [reflexivity|].
  apply (flashcards_navigation req 2 no_session db eq_refl).
Defined.

Lemma mark_learned_twice_witness :
  let req := {| method := POST; form_learned := Some 7%Z;
                args_next := None; args_prev := None |} in
  let db := {| vocabulary := level_of_12; progress := [] |} in
  method req = POST
  ∧ truthy (user_id user_42) = Some 42%Z
  ∧ form_learned req = Some 7%Z
  ∧ (∀ u v, length (records_for u v (progress db)) ≤ 1)
  ∧ length (records_for 42 7
              (progress (flashcards req 1 user_42
                           (flashcards req 1 user_42 db).2).2)) = 1.
Proof.
  intros req db.
  assert (∀ u v, length (records_for u v (progress db)) ≤ 1) as Huniq.
  { intros u v. simpl. lia. }
  split_and!; [reflexivity | reflexivity | reflexivity | exact Huniq |].
  apply (mark_learned_twice req 1 user_42 db 42 7 eq_refl eq_refl eq_refl
           Huniq).
Defined.

Lemma no_quiz_KeyError_witness :
  no_quiz no_session
  ∧ quiz_next 2 three_levels no_session [] = Raise (KeyError "quiz_current")
  ∧ quiz_submit 2 3 3 three_levels no_session
    = Raise (KeyError "quiz_correct")
  ∧ quiz_question 2 three_levels no_session []
    = Ok (Redirect (url_quiz 2), []).
Proof.
  assert (no_quiz no_session) as Hnone by (by unfold no_quiz).
  split; [exact Hnone|].
  destruct (no_quiz_KeyError 2 three_levels no_session [] Hnone)
    as (Hnext & Hsubmit & Hquestion).
  split_and!; [exact Hnext | exact (Hsubmit 3%Z) | exact Hquestion].
Defined.

(** ** The vocabulary list *)

Lemma take_add_drop {A} (l : list A) (a b : nat) :
  take (a + b) l = take a l ++ take b (drop a l).
Proof.
  revert l. induction a as [|a IH]; intros [|x l]; simpl; try done.
  - by rewrite take_nil.
  - by rewrite IH.
Qed.

(** A page of ten counted from the start is the slice of the source. *)
Lemma py_slice_page {A} (l : list A) (p : Z) :
  (1 ≤ p)%Z →
  py_slice l ((p - 1) * 10) ((p - 1) * 10 + 10)
  = take 10 (drop (Z.to_nat ((p - 1) * 10)) l).
Proof.
  intros Hp. unfold py_slice, slice_bound.
  destruct ((p - 1) * 10 <? 0)%Z eqn:Hneg; [apply Z.ltb_lt in Hneg; lia|].
  destruct ((p - 1) * 10 + 10 <? 0)%Z eqn:Hneg'; [apply Z.ltb_lt in Hneg'; lia|].
  destruct (decide ((p - 1) * 10 + 10 ≤ Z.of_nat (length l))%Z) as [Hin|Hout].
  - f_equal; [lia|f_equal; lia].
  - destruct (decide ((p - 1) * 10 ≤ Z.of_nat (length l))%Z) as [Hin'|Hout'].
    + replace (Z.to_nat (Z.min ((p - 1) * 10) (Z.of_nat (length l))))
        with (Z.to_nat ((p - 1) * 10)) by lia.
      rewrite !take_ge; [done|rewrite length_drop; lia..].
    + rewrite !drop_ge by lia. by rewrite !take_nil.
Qed.

Lemma join_pages {A} (l : list A) (k : nat) :
  mjoin ((λ p, take 10 (drop (Z.to_nat ((Z.of_nat p - 1) * 10)) l))
         <$> seq 1 k)
  = take (k * 10) l.
Proof.
  induction k as [|k IH]; [done|].
  rewrite seq_S, fmap_app, join_app, IH. simpl. rewrite app_nil_r.
  replace (Z.to_nat ((Z.of_nat (S k) - 1) * 10)) with (k * 10) by lia.
  by rewrite <-take_add_drop, Nat.add_comm.
Qed.

Section VocabList.
Context `{Library}.

(** X1. The pages 1 to [total_pages] of [vocab_list], one after the
    other, are exactly the rows of the query, in its order; [total_pages]
    is the least number of pages of ten that hold them; every such page
    has between one and ten rows, and ten unless it is the last. *)
Theorem vocab_list_pages search level s db :
  let rows := vocab_list_rows (default "" search) level s db in
  let page p :=
    vocab_list {| args_search := search; args_page := Some p |} level s db in
  let total_pages := shown_total_pages (page 1%Z) in
  (∀ p, shown_total_pages (page p) = total_pages)
  ∧ (10 * (total_pages - 1) < Z.of_nat (length rows) ≤ 10 * total_pages)%Z
  ∧ mjoin ((λ p, shown_rows (page (Z.of_nat p)))
           <$> seq 1 (Z.to_nat total_pages)) = rows
  ∧ ∀ p, (1 ≤ p ≤ total_pages)%Z →
      1 ≤ length (shown_rows (page p)) ≤ 10
      ∧ ((p < total_pages)%Z → length (shown_rows (page p)) = 10).
Proof.
  intros rows page total_pages. subst page total_pages.
  unfold vocab_list. simpl. fold rows.
  set (n := Z.of_nat (length rows)).
  assert (10 * ((n + 10 - 1) `div` 10 - 1) < n ≤ 10 * ((n + 10 - 1) `div` 10))%Z
    as Hceil by (Z.to_euclidean_division_equations; lia).
  set (tp := ((n + 10 - 1) `div` 10)%Z) in *.
  split_and!; [done|lia|lia|..].
  - erewrite list_fmap_ext; last first.
    { intros i p Hp%lookup_seq. apply py_slice_page. lia. }
    rewrite join_pages. apply take_ge. lia.
  - intros p Hp. rewrite py_slice_page by lia.
    rewrite length_take, length_drop. lia.
Qed.

(** X2. A [page] outside the pages is not refused. Page 0 and every page
    after [total_pages] show no row. A negative page shows rows counted
    from the end of the list: with [b] the length of the list plus ten
    times the page, at least 0, the ten rows before position [b], or the
    first [b] rows when there are fewer than ten. *)
Theorem vocab_list_page_outside search level s db p :
  let rows := vocab_list_rows (default "" search) level s db in
  let v :=
    vocab_list {| args_search := search; args_page := Some p |} level s db in
  (p = 0%Z ∨ (shown_total_pages v < p)%Z → shown_rows v = [])
  ∧ ((p < 0)%Z →
     let b := Z.max 0 (Z.of_nat (length rows) + 10 * p) in
     shown_rows v
     = take (Z.to_nat (Z.min 10 b)) (drop (Z.to_nat (b - 10)) rows)).
Proof.
  intros rows v. subst v. unfold vocab_list. simpl. fold rows.
  set (n := Z.of_nat (length rows)). split.
  - intros [->|Hlate].
    + unfold py_slice, slice_bound. simpl. fold n.
      rewrite Z.min_l by lia. replace (Z.to_nat _) with 0 by lia. done.
    + assert (n ≤ (p - 1) * 10)%Z
        by (Z.to_euclidean_division_equations; lia).
      rewrite py_slice_page by lia.
      rewrite drop_ge by lia. by rewrite take_nil.
  - intros Hneg. unfold py_slice, slice_bound. fold n.
    destruct ((p - 1) * 10 <? 0)%Z eqn:Hlt; [|apply Z.ltb_ge in Hlt; lia].
    destruct ((p - 1) * 10 + 10 <? 0)%Z eqn:Hlt'; [|apply Z.ltb_ge in Hlt'; lia].
    f_equal; [lia|f_equal; lia].
Qed.
End VocabList.

(** *** The learned column *)

Lemma bind_one {A B} (f : A → B) (g : A → list B) (l : list A) :
  (∀ x, x ∈ l → g x = [f x]) → l ≫= g = f <$> l.
Proof.
  induction l as [|a l IH]; intros Hg; [done|].
  rewrite bind_cons, fmap_cons, Hg, IH; [done| |left].
  intros x Hx. apply Hg. by right.
Qed.

Lemma left_join_records user records v :
  filter (λ p, v_id v = p_vocab_id p ∧ p_user_id p = user) records
  = records_for user (v_id v) records.
Proof.
  unfold records_for. apply list_filter_iff.
  intros p. split; intros [? ?]; by split.
Qed.

(** With at most one record per pair, the join gives one row per
    vocabulary row. *)
Lemma left_join_one user records v :
  one_record_per_pair records →
  left_join_learned user records v = [(v, learned_flag user records v)].
Proof.
  intros Hone. unfold left_join_learned, learned_flag.
  rewrite left_join_records. specialize (Hone user (v_id v)).
  destruct (records_for user (v_id v) records) as [|p [|p' l]];
    simpl in *; [done|done|lia].
Qed.

Lemma learned_flag_after_mark user vocab db w :
  learned_flag user (progress (mark_learned user vocab db)) w
  = if decide (v_id w = vocab) then 1%Z
    else learned_flag user (progress db) w.
Proof.
  pose proof (mark_learned_records user (v_id w) user vocab db) as Hlen.
  unfold learned_flag.
  destruct (decide (v_id w = vocab)) as [<-|Hne].
  - rewrite decide_True in Hlen by done.
    destruct (records_for user (v_id w) (progress (mark_learned _ _ _)));
      simpl in *; [lia|done].
  - rewrite decide_False in Hlen by (by intros [_ ?]).
    destruct (records_for user (v_id w) (progress (mark_learned _ _ _))),
      (records_for user (v_id w) (progress db)); simpl in *; done || lia.
Qed.

Lemma mark_learned_one_record user vocab db :
  one_record_per_pair (progress db) →
  one_record_per_pair (progress (mark_learned user vocab db)).
Proof.
  intros Hone u v. rewrite mark_learned_records.
  specialize (Hone u v). case_decide; lia.
Qed.

Section LearnedColumn.
Context `{Library}.

Lemma vocab_list_rows_listed search level s db :
  truthy (user_id s) = None ∨ one_record_per_pair (progress db) →
  vocab_list_rows search level s db
  = (λ v, (v, match truthy (user_id s) with
              | Some user => learned_flag user (progress db) v
              | None => 0%Z
              end)) <$> listed search level (vocabulary db).
Proof.
  intros Hs. unfold vocab_list_rows, listed.
  destruct (truthy (user_id s)) as [user|] eqn:Huser.
  - destruct Hs as [|Hone]; [done|].
    case_bool_decide; apply bind_one; intros v _; by apply left_join_one.
  - by case_bool_decide.
Qed.

(** X3. With at most one progress record per (user, vocabulary item)
    pair, the query of [vocab_list] gives exactly one row per vocabulary
    row that the WHERE clause keeps, in the order of the table; for a
    logged-in user its [learned] column is 1 exactly for the rows the user
    has a record for, whatever the [learned] value of the record, and for
    a visitor it is 0 throughout. *)
Theorem vocab_list_learned_column search level s db :
  one_record_per_pair (progress db) →
  vocab_list_rows search level s db
  = (λ v, (v, match truthy (user_id s) with
              | Some user => learned_flag user (progress db) v
              | None => 0%Z
              end)) <$> listed search level (vocabulary db).
Proof. intros Hone. apply vocab_list_rows_listed. by right. Qed.

(** X4. After a logged-in user marks a vocabulary item learned on the
    flashcards page, the vocabulary list shows the row of that item as
    learned, and every other row as it was shown before. *)
Theorem vocab_list_after_mark req level0 search level s db user vocab :
  one_record_per_pair (progress db) →
  method req = POST →
  truthy (user_id s) = Some user →
  form_learned req = Some vocab →
  vocab_list_rows search level s (flashcards req level0 s db).2
  = (λ v, (v, if decide (v_id v = vocab) then 1%Z
              else learned_flag user (progress db) v))
    <$> listed search level (vocabulary db).
Proof.
  intros Hone Hpost Huser Hvocab.
  unfold flashcards. rewrite Hpost, Huser, Hvocab. simpl.
  rewrite vocab_list_rows_listed
    by (right; by apply mark_learned_one_record).
  rewrite Huser.
  replace (vocabulary (mark_learned user vocab db)) with (vocabulary db)
    by (unfold mark_learned; by destruct (select_progress _ _ _)).
  apply list_fmap_ext. intros i v _.
  by rewrite learned_flag_after_mark.
Qed.

(** X5. The count the level selection shows for each of the levels 1 to
    6 is the number of rows the vocabulary list of that level has over all
    its pages when nothing is searched for, given at most one progress
    record per pair. *)
Theorem hsk_select_counts s db :
  one_record_per_pair (progress db) →
  shown_levels (hsk_select db)
  = (λ i, (i, Z.of_nat (length (vocab_list_rows "" i s db))))
    <$> [1; 2; 3; 4; 5; 6]%Z.
Proof.
  intros Hone. unfold hsk_select. simpl.
  by rewrite !vocab_list_rows_listed, !length_fmap by by right.
Qed.
End LearnedColumn.

(** ** The progress page *)

Lemma has_learned_iff user records v :
  has_learned user records v
  ↔ ∃ p, p ∈ records ∧ p_user_id p = user ∧ p_vocab_id p = v_id v
         ∧ p_learned p = 1%Z.
Proof. unfold has_learned. by rewrite Exists_exists. Qed.

(** The count of the join with DISTINCT is the count of the rows of the
    level with a learned record. *)
Lemma count_learned_rows user level db :
  NoDup (v_id <$> vocabulary db) →
  count_learned user level db
  = Z.of_nat (length (learned_rows user level db)).
Proof.
  intros Hnd. unfold count_learned, learned_rows. f_equal.
  rewrite <-(length_fmap v_id (filter _ _)).
  apply Permutation_length, NoDup_Permutation.
  - apply NoDup_remove_dups.
  - eapply sublist_NoDup; [exact Hnd|].
    apply fmap_sublist. etrans; apply sublist_filter.
  - intros i. rewrite elem_of_remove_dups, !list_elem_of_fmap. split.
    + intros ([p v] & -> & Hpv). simpl.
      apply list_elem_of_filter in Hpv as [(Hu & Hl & Hone) Hpv].
      apply list_elem_of_bind in Hpv as (p' & Hv & Hp).
      apply list_elem_of_fmap in Hv as (v' & [= <- <-] & Hv).
      apply list_elem_of_filter in Hv as [Hid Hv]. simpl in *.
      exists v. split; [done|].
      apply list_elem_of_filter. split.
      * apply has_learned_iff. by exists p.
      * by apply select_level_elem.
    + intros (v & -> & Hv).
      apply list_elem_of_filter in Hv as [Hp Hv].
      apply has_learned_iff in Hp as (p & Hp & Hu & Hid & Hone).
      apply select_level_elem in Hv as [Hl Hv].
      exists (p, v). split; [done|].
      apply list_elem_of_filter. split; [done|].
      apply list_elem_of_bind. exists p. split; [|done].
      apply list_elem_of_fmap. exists v. split; [done|].
      by apply list_elem_of_filter.
Qed.

(** One more row passes a filter that, in a table without repeated ids,
    lets the row with the id [i] through besides. *)
Lemma filter_one_more (P Q : vocab_row → Prop)
    `{!∀ v, Decision (P v), !∀ v, Decision (Q v)} (l : list vocab_row) i :
  NoDup (v_id <$> l) →
  (∀ w, w ∈ l → v_id w = i → ¬ P w) →
  (∀ w, w ∈ l → Q w ↔ P w ∨ v_id w = i) →
  length (filter Q l)
  = length (filter P l) + if decide (i ∈ v_id <$> l) then 1 else 0.
Proof.
  intros Hnd. induction l as [|a l IH]; intros HP HQ.
  { by rewrite decide_False by apply not_elem_of_nil. }
  rewrite fmap_cons in Hnd. apply NoDup_cons in Hnd as [Ha Hnd].
  specialize (IH Hnd (λ w Hw, HP w (list_elem_of_further _ _ _ Hw))
                (λ w Hw, HQ w (list_elem_of_further _ _ _ Hw))).
  pose proof (HQ a ltac:(left)) as HQa.
  pose proof (HP a ltac:(left)) as HPa.
  rewrite fmap_cons. destruct (decide (v_id a = i)) as [Heq|Hne].
  - rewrite filter_cons_True, filter_cons_False by tauto.
    rewrite decide_True by (rewrite Heq; left).
    rewrite decide_False in IH by (by rewrite <-Heq).
    simpl. lia.
  - destruct (decide (i ∈ v_id <$> l)) as [Hi|Hi].
    + rewrite decide_True by by right.
      rewrite !filter_cons. repeat case_decide; simpl; try lia; tauto.
    + rewrite decide_False by (intros [?|?]%elem_of_cons; done).
      rewrite !filter_cons. repeat case_decide; simpl; try lia; tauto.
Qed.

Lemma has_learned_after_mark user vocab db w :
  records_for user vocab (progress db) = [] →
  has_learned user (progress (mark_learned user vocab db)) w
  ↔ has_learned user (progress db) w ∨ v_id w = vocab.
Proof.
  intros Hnone. rewrite mark_learned_absent by done.
  unfold insert_progress. rewrite !has_learned_iff. split.
  - intros (p & [Hp|Hp%list_elem_of_singleton]%elem_of_app & Hu & Hid & Hl).
    + left. by exists p.
    + right. subst p. by simpl in *.
  - intros [(p & Hp & Hrest)|Hid].
    + exists p. split; [apply elem_of_app; by left|done].
    + eexists. split; [apply elem_of_app; right; by left|]. by simpl.
Qed.

Lemma not_learned_unmarked user vocab db w :
  records_for user vocab (progress db) = [] →
  v_id w = vocab → ¬ has_learned user (progress db) w.
Proof.
  intros Hnone Hid (p & Hp & Hu & Hv & _)%has_learned_iff.
  assert (p ∈ records_for user vocab (progress db)) as Hin.
  { apply list_elem_of_filter. split; [split; congruence|done]. }
  rewrite Hnone in Hin. by apply elem_of_nil in Hin.
Qed.

Section FloatFacts.
Local Open Scope Z_scope.

Lemma round_half_even_spec num den :
  0 < den →
  let m := round_half_even num den in
  2 * m * den - den ≤ 2 * num ≤ 2 * m * den + den.
Proof.
  intros Hden. unfold round_half_even.
  pose proof (Z.div_mod num den ltac:(lia)) as Hdiv.
  pose proof (Z.mod_pos_bound num den Hden) as Hmod.
  repeat case_bool_decide; simpl; [nia|nia|].
  destruct (Z.even _); nia.
Qed.

(** The scaled quotient has more than 53 bits. *)
Lemma round53_scale n d :
  0 < n → 0 < d →
  let k := 54 + Z.log2 d in
  let s := Z.log2 ((n * 2 ^ k) `div` d) - 52 in
  0 < s ∧ d * 2 ^ s * 2 ^ 52 ≤ n * 2 ^ k
  ∧ n * 2 ^ k < d * 2 ^ s * 2 ^ 53.
Proof.
  intros Hn Hd k s.
  pose proof (Z.log2_nonneg d) as Hld.
  destruct (Z.log2_spec d Hd) as [Hd1 Hd2].
  assert (2 ^ k = 2 ^ 53 * 2 ^ Z.succ (Z.log2 d)) as Hk.
  { unfold k. rewrite <-Z.pow_add_r by lia. f_equal. lia. }
  assert (0 < 2 ^ Z.succ (Z.log2 d)) as Hpos by (apply Z.pow_pos_nonneg; lia).
  assert (2 ^ 53 ≤ (n * 2 ^ k) `div` d) as Hy.
  { apply (Z.div_le_lower_bound (n * 2 ^ k) d (2 ^ 53)); [done|].
    rewrite Hk. nia. }
  set (y := (n * 2 ^ k) `div` d) in *.
  destruct (Z.log2_spec y ltac:(lia)) as [Hy1 Hy2].
  assert (53 ≤ Z.log2 y) as Hly.
  { apply Z.log2_le_pow2; lia. }
  pose proof (Z.div_mod (n * 2 ^ k) d ltac:(lia)) as Hdiv.
  pose proof (Z.mod_pos_bound (n * 2 ^ k) d Hd) as Hmod.
  fold y in Hdiv.
  assert (2 ^ Z.log2 y = 2 ^ s * 2 ^ 52) as Hs1.
  { unfold s. rewrite <-Z.pow_add_r by lia. f_equal. lia. }
  assert (2 ^ Z.succ (Z.log2 y) = 2 ^ s * 2 ^ 53) as Hs2.
  { unfold s. rewrite <-Z.pow_add_r by lia. f_equal. lia. }
  split_and!; [unfold s; lia|nia|nia].
Qed.

Lemma round53_spec n d :
  0 < n → 0 < d →
  ∃ N D, round53 n d = (N, D)
    ∧ 0 < D ∧ 0 < N
    ∧ Z.log2 D = 54 + Z.log2 d
    ∧ D = 2 ^ Z.log2 D
    ∧ (2 ^ 53 - 1) * (n * D) ≤ 2 ^ 53 * (N * d) ≤ (2 ^ 53 + 1) * (n * D).
Proof.
  intros Hn Hd. unfold round53. rewrite bool_decide_eq_false_2 by lia.
  destruct (round53_scale n d Hn Hd) as (Hs & Hlow & Hhigh).
  set (k := 54 + Z.log2 d) in *.
  set (s := Z.log2 ((n * 2 ^ k) `div` d) - 52) in *.
  pose proof (Z.log2_nonneg d) as Hld.
  assert (0 < 2 ^ s) as Hps by (apply Z.pow_pos_nonneg; lia).
  assert (0 < 2 ^ k) as Hpk by (apply Z.pow_pos_nonneg; lia).
  pose proof (round_half_even_spec (n * 2 ^ k) (d * 2 ^ s) ltac:(nia)) as Hm.
  simpl in Hm. set (m := round_half_even _ _) in *.
  eexists _, _. split; [done|].
  split_and!; [done| | | |nia|nia].
  - assert (0 < m); nia.
  - rewrite Z.log2_pow2; lia.
  - rewrite Z.log2_pow2; lia.
Qed.

(** Two roundings: the value of [(l / t) * 100] against the quotient. *)
Lemma float_percent_bounds l t :
  0 < l → 0 < t →
  ∃ N D, 0 < D
    ∧ float_percent l t = N `div` D
    ∧ (2 ^ 53 - 1) * (2 ^ 53 - 1) * (100 * l * D)
      ≤ 2 ^ 53 * 2 ^ 53 * (N * t)
      ≤ (2 ^ 53 + 1) * (2 ^ 53 + 1) * (100 * l * D).
Proof.
  intros Hl Ht. unfold float_percent.
  destruct (round53_spec l t Hl Ht)
    as (N1 & D1 & -> & HD1 & HN1 & _ & _ & Hlow1 & Hhigh1).
  destruct (round53_spec (N1 * 100) D1 ltac:(lia) HD1)
    as (N2 & D2 & -> & HD2 & HN2 & _ & _ & Hlow2 & Hhigh2).
  exists N2, D2. split_and!; [done|done| |].
  - apply (Z.mul_le_mono_pos_r _ _ D1 HD1).
    transitivity ((2 ^ 53 - 1) * (100 * D2) * (2 ^ 53 * (N1 * t))).
    + transitivity ((2 ^ 53 - 1) * (100 * D2) * ((2 ^ 53 - 1) * (l * D1)));
        [lia|].
      apply Z.mul_le_mono_nonneg_l; [lia|done].
    + transitivity (2 ^ 53 * t * (2 ^ 53 * (N2 * D1))); [|lia].
      transitivity (2 ^ 53 * t * ((2 ^ 53 - 1) * (N1 * 100 * D2))); [lia|].
      apply Z.mul_le_mono_nonneg_l; [lia|done].
  - apply (Z.mul_le_mono_pos_r _ _ D1 HD1).
    transitivity ((2 ^ 53 + 1) * (100 * D2) * (2 ^ 53 * (N1 * t))).
    + transitivity (2 ^ 53 * t * (2 ^ 53 * (N2 * D1))); [lia|].
      transitivity (2 ^ 53 * t * ((2 ^ 53 + 1) * (N1 * 100 * D2))); [|lia].
      apply Z.mul_le_mono_nonneg_l; [lia|done].
    + transitivity ((2 ^ 53 + 1) * (100 * D2) * ((2 ^ 53 + 1) * (l * D1)));
        [|lia].
      apply Z.mul_le_mono_nonneg_l; [lia|done].
Qed.

(** [int((learned / total) * 100)] is the percentage rounded down, or one
    less when the percentage is a whole number. *)
Lemma float_percent_spec l t :
  0 < l ≤ t → t ≤ 2 ^ 45 →
  let exact := (100 * l) `div` t in
  (float_percent l t = exact
   ∨ (100 * l) `mod` t = 0 ∧ float_percent l t = exact - 1).
Proof.
  intros Hl Ht exact.
  destruct (float_percent_bounds l t) as (N & D & HD & -> & Hlow & Hhigh);
    [lia..|].
  pose proof (Z.div_mod (100 * l) t ltac:(lia)) as Hdiv.
  pose proof (Z.mod_pos_bound (100 * l) t ltac:(lia)) as Hmod.
  fold exact in Hdiv. set (r := (100 * l) `mod` t) in *.
  pose proof (Z.div_mod N D ltac:(lia)) as HdivN.
  pose proof (Z.mod_pos_bound N D ltac:(lia)) as HmodN.
  set (p := N `div` D) in *.
  assert (0 ≤ exact ≤ 100) as Hexact.
  { split; [apply Z.div_pos; lia|].
    apply Z.div_le_upper_bound; lia. }
  assert (p ≤ exact) as Hup.
  { destruct (decide (p ≤ exact)) as [|Hgt]; [done|]. exfalso.
    assert ((exact + 1) * D ≤ N) as HN by nia.
    assert (2 ^ 53 * 2 ^ 53 * ((exact + 1) * D * t)
            ≤ (2 ^ 53 + 1) * (2 ^ 53 + 1) * ((t * exact + r) * D)) as Hc.
    { rewrite <-Hdiv. etransitivity; [|exact Hhigh].
      apply Z.mul_le_mono_nonneg_l; [lia|]. nia. }
    assert (2 ^ 53 * 2 ^ 53 * ((exact + 1) * t)
            ≤ (2 ^ 53 + 1) * (2 ^ 53 + 1) * (t * exact + r)) as Hc'.
    { apply (Z.mul_le_mono_pos_r _ _ D HD). lia. }
    assert (t * exact + r ≤ 100 * t) as Hle by lia.
    nia. }
  assert (r ≠ 0 → exact ≤ p) as Hdown.
  { intros Hr. destruct (decide (exact ≤ p)) as [|Hlt]; [done|]. exfalso.
    assert (N < exact * D) as HN by nia.
    assert ((2 ^ 53 - 1) * (2 ^ 53 - 1) * ((t * exact + r) * D)
            < 2 ^ 53 * 2 ^ 53 * (exact * D * t)) as Hc.
    { rewrite <-Hdiv. eapply Z.le_lt_trans; [exact Hlow|].
      apply Z.mul_lt_mono_pos_l; [lia|]. nia. }
    assert ((2 ^ 53 - 1) * (2 ^ 53 - 1) * (t * exact + r)
            < 2 ^ 53 * 2 ^ 53 * (exact * t)) as Hc'.
    { apply (Z.mul_lt_mono_pos_r D); [done|]. lia. }
    assert (t * exact + r ≤ 100 * t) as Hle by lia.
    nia. }
  assert (r = 0 → exact - 1 ≤ p) as Hdown'.
  { intros Hr. destruct (decide (exact - 1 ≤ p)) as [|Hlt]; [done|]. exfalso.
    assert (N < (exact - 1) * D) as HN by nia.
    assert ((2 ^ 53 - 1) * (2 ^ 53 - 1) * ((t * exact + r) * D)
            < 2 ^ 53 * 2 ^ 53 * ((exact - 1) * D * t)) as Hc.
    { rewrite <-Hdiv. eapply Z.le_lt_trans; [exact Hlow|].
      apply Z.mul_lt_mono_pos_l; [lia|]. nia. }
    assert ((2 ^ 53 - 1) * (2 ^ 53 - 1) * (t * exact + r)
            < 2 ^ 53 * 2 ^ 53 * ((exact - 1) * t)) as Hc'.
    { apply (Z.mul_lt_mono_pos_r D); [done|]. lia. }
    nia. }
  destruct (decide (r = 0)) as [Hr|Hr].
  - destruct (decide (p = exact)); [by left|right]. split; [done|].
    specialize (Hdown' Hr). lia.
  - left. specialize (Hdown Hr). lia.
Qed.

Lemma round_half_even_exact q den :
  0 < den → round_half_even (q * den) den = q.
Proof.
  intros Hden. unfold round_half_even.
  rewrite Z.div_mul, Z.mod_mul by lia.
  by rewrite bool_decide_eq_true_2 by lia.
Qed.

(** A quotient [c * 2^j] with [c] of at most 53 bits is not rounded. *)
Lemma round53_exact c d :
  0 < c < 2 ^ 53 → 0 < d →
  (round53 (c * d) d).1 = c * (round53 (c * d) d).2.
Proof.
  intros Hc Hd. unfold round53.
  rewrite bool_decide_eq_false_2 by nia. simpl.
  pose proof (Z.log2_nonneg d) as Hld.
  pose proof (Z.log2_nonneg c) as Hlc.
  set (k := 54 + Z.log2 d).
  replace (c * d * 2 ^ k) with (c * 2 ^ k * d) by lia.
  rewrite Z.div_mul by lia.
  rewrite Z.log2_mul_pow2 by lia.
  assert (Z.log2 c < 53) as Hlc' by (apply Z.log2_lt_pow2; lia).
  set (s := k + Z.log2 c - 52).
  assert (0 ≤ s) as Hs by (unfold s, k; lia).
  assert (2 ^ k = 2 ^ (52 - Z.log2 c) * 2 ^ s) as ->.
  { rewrite <-Z.pow_add_r by lia. f_equal. unfold s. lia. }
  assert (0 < 2 ^ s) as Hps by (apply Z.pow_pos_nonneg; lia).
  replace (c * (2 ^ (52 - Z.log2 c) * 2 ^ s) * d)
    with (c * 2 ^ (52 - Z.log2 c) * (d * 2 ^ s)) by lia.
  rewrite round_half_even_exact by nia. lia.
Qed.

(** Every row learned is 100 percent. *)
Lemma float_percent_all t : 0 < t → float_percent t t = 100.
Proof.
  intros Ht. unfold float_percent.
  pose proof (round53_exact 1 t ltac:(lia) Ht) as H1.
  rewrite Z.mul_1_l in H1.
  destruct (round53_spec t t Ht Ht) as (N1 & D1 & Heq & HD1 & _).
  rewrite Heq in *. simpl in H1. subst N1. rewrite Z.mul_1_l.
  pose proof (round53_exact 100 D1 ltac:(lia) HD1) as H2.
  replace (D1 * 100) with (100 * D1) by lia.
  destruct (round53_spec (100 * D1) D1 ltac:(lia) HD1)
    as (N2 & D2 & Heq2 & HD2 & _).
  rewrite Heq2 in *. simpl in H2. subst N2.
  by rewrite Z.div_mul by lia.
Qed.

Lemma float_percent_none t : float_percent 0 t = 0.
Proof. reflexivity. Qed.
End FloatFacts.

(** X6. Without [user_id] in the session the progress page redirects to
    the login. With it, the page has one entry for each of the levels 1
    to 6, in that order: 0 for a level without rows (nothing is divided),
    and otherwise [int((learned / total) * 100)] of the number of rows of
    the level and the number of those rows the user has a record with
    [learned = 1] for. Repeated records and records for identifiers that
    are no row's do not count, and the second number is never above the
    first. The entry is 0 when no row is learned and 100 when all are;
    between the two (for a level of at most [2^45] rows) it is the
    percentage rounded down, or one less than the percentage when that is
    a whole number, the two roundings of the float expression falling
    short of it. *)
Theorem progress_page_counts s db :
  NoDup (v_id <$> vocabulary db) →
  match user_id s with
  | None => progress_page s db = redirect_to url_login
  | Some user =>
      progress_page s db
      = progress_html
          ((λ lvl,
              let rows := select_level lvl (vocabulary db) in
              let learned := learned_rows user lvl db in
              (lvl, if decide (rows = []) then 0%Z
                    else float_percent (Z.of_nat (length learned))
                           (Z.of_nat (length rows))))
           <$> [1; 2; 3; 4; 5; 6]%Z)
      ∧ ∀ lvl,
          let total := Z.of_nat (length (select_level lvl (vocabulary db))) in
          let learned := Z.of_nat (length (learned_rows user lvl db)) in
          (0 ≤ learned ≤ total)%Z
          ∧ (learned = 0%Z → float_percent learned total = 0%Z)
          ∧ ((0 < total)%Z → learned = total →
             float_percent learned total = 100%Z)
          ∧ ((0 < learned)%Z → (total ≤ 2 ^ 45)%Z →
             float_percent learned total = ((100 * learned) `div` total)%Z
             ∨ ((100 * learned) `mod` total = 0
                ∧ float_percent learned total
                  = (100 * learned) `div` total - 1)%Z)
  end.
Proof.
  intros Hnd. unfold progress_page.
  destruct (user_id s) as [user|]; [|done]. split.
  - f_equal. apply list_fmap_ext. intros _ lvl _. simpl.
    rewrite count_learned_rows by done. unfold count_level.
    destruct (select_level lvl (vocabulary db)) eqn:Hrows; [done|].
    rewrite decide_False by done.
    by rewrite bool_decide_eq_true_2 by (simpl; lia).
  - intros lvl.
    set (total := Z.of_nat (length (select_level lvl (vocabulary db)))).
    set (learned := Z.of_nat (length (learned_rows user lvl db))).
    assert (0 ≤ learned ≤ total)%Z as Hle.
    { pose proof (length_filter (has_learned user (progress db))
                    (select_level lvl (vocabulary db))) as Hlen.
      unfold learned, total, learned_rows. lia. }
    split_and!; [lia..| | |].
    + intros ->. apply float_percent_none.
    + intros Htotal ->. by apply float_percent_all.
    + intros Hlearned Htotal. apply float_percent_spec; lia.
Qed.

(** X7. When a logged-in user marks an item never marked before, the
    number of learned rows the progress page counts goes up by exactly one
    for a level that has a row with that identifier, and stays as it was
    for every other level; the number of rows of a level does not move. *)
Theorem count_learned_after_mark req level0 level s db user vocab :
  NoDup (v_id <$> vocabulary db) →
  method req = POST →
  truthy (user_id s) = Some user →
  form_learned req = Some vocab →
  records_for user vocab (progress db) = [] →
  let db' := (flashcards req level0 s db).2 in
  count_learned user level db'
  = (count_learned user level db
     + if decide (vocab ∈ v_id <$> select_level level (vocabulary db))
       then 1 else 0)%Z
  ∧ count_level level (vocabulary db') = count_level level (vocabulary db).
Proof.
  intros Hnd Hpost Huser Hvocab Hnone db'. subst db'.
  unfold flashcards. rewrite Hpost, Huser, Hvocab. simpl.
  assert (vocabulary (mark_learned user vocab db) = vocabulary db) as Htbl
    by (unfold mark_learned; by destruct (select_progress _ _ _)).
  rewrite !count_learned_rows by (by rewrite ?Htbl).
  unfold learned_rows. rewrite Htbl. split; [|done].
  rewrite (filter_one_more (has_learned user (progress db))
             (has_learned user (progress (mark_learned user vocab db)))
             _ vocab).
  - case_decide; lia.
  - by apply select_level_ids_NoDup.
  - intros w _. by apply not_learned_unmarked.
  - intros w _. by apply has_learned_after_mark.
Qed.

(** ** Sign-up, login and logout *)

Lemma max_id_bound (ids : list Z) i : i ∈ ids → (i ≤ foldr Z.max 0 ids)%Z.
Proof.
  induction ids as [|j ids IH]; intros Hi; [by apply elem_of_nil in Hi|].
  simpl. apply elem_of_cons in Hi as [->|Hi]; [lia|].
  specialize (IH Hi). lia.
Qed.

Lemma next_id_fresh (ids : list Z) : (foldr Z.max 0 ids + 1)%Z ∉ ids.
Proof. intros Hin%max_id_bound. lia. Qed.



(** X9. A login succeeds exactly when some user row has both the email
    and the password: then the session gets the id of such a row and
    [session.permanent] is set to whether "remember" was "yes". Otherwise
    the error page is returned and nothing of the session is changed. *)
Theorem login_checks email password remember users s :
  (∃ u, u ∈ users ∧ u_email u = email ∧ u_password u = password
        ∧ login POST email password remember users s
          = (redirect_to (path "/home"), set_user_id (u_id u) s,
             Some (bool_decide (remember = Some "yes"))))
  ∨ ((∀ u, u ∈ users → ¬ (u_email u = email ∧ u_password u = password))
     ∧ login POST email password remember users s
       = (login_html (Some "Invalid email or password. Please try again."),
          s, None)).
Proof.
  unfold login.
  destruct (head (filter _ users)) as [u|] eqn:Hhead.
  - left. exists u.
    apply head_Some_elem_of, list_elem_of_filter in Hhead as [[? ?] ?].
    done.
  - right. split; [|done]. intros u Hu Hmatch.
    apply head_None in Hhead.
    eapply elem_of_nil. rewrite <-Hhead. by apply list_elem_of_filter.
Qed.

(** X10. Sign-up keeps the emails and the ids of [users] free of
    repetition, whatever the state of the database. On a database whose
    write lock no open connection holds, a sign-up with an email some
    user has raises the integrity error of the UNIQUE constraint, adds no
    row and leaves its connection open with the lock held; every other
    sign-up appends one row, with that email, that password as given and
    a new id, to the rows there were, and leaves the lock free. On a
    database whose write lock is held, every sign-up ends in the
    [OperationalError] and changes nothing. *)
Theorem signup_keeps_emails_unique email password t :
  NoDup (u_email <$> user_rows t) →
  NoDup (u_id <$> user_rows t) →
  let '(r, t') := signup_request POST email password t in
  NoDup (u_email <$> user_rows t')
  ∧ NoDup (u_id <$> user_rows t')
  ∧ match r with
    | Done v =>
        write_locked t = false
        ∧ (email ∉ u_email <$> user_rows t)
        ∧ v = redirect_to (path "/login")
        ∧ (∃ u, user_rows t' = user_rows t ++ [u]
                ∧ u_email u = email ∧ u_password u = password
                ∧ (u_id u ∉ u_id <$> user_rows t))
        ∧ write_locked t' = false
    | IntegrityError msg =>
        write_locked t = false
        ∧ email ∈ u_email <$> user_rows t
        ∧ msg = "UNIQUE constraint failed: users.email"
        ∧ user_rows t' = user_rows t
        ∧ write_locked t' = true
    | OperationalError msg =>
        write_locked t = true ∧ msg = "database is locked" ∧ t' = t
    end.
Proof.
  intros Hemails Hids. unfold signup_request, signup, insert_user.
  destruct (write_locked t) eqn:Hlock; [done|].
  case_bool_decide as Hin; simpl; [done|].
  assert (foldr Z.max 0 (u_id <$> user_rows t) + 1 ∉ u_id <$> user_rows t)%Z
    as Hnew by (intros Hi; by apply next_id_fresh in Hi).
  split_and!; [| |done|done|done|by eexists|done]; rewrite fmap_app; simpl.
  - apply NoDup_app. split_and!; [done| |apply NoDup_singleton].
    by intros e He ->%list_elem_of_singleton.
  - apply NoDup_app. split_and!; [done| |apply NoDup_singleton].
    by intros i Hi ->%list_elem_of_singleton.
Qed.

(** X11. [logout] empties the session, the quiz keys with the login:
    after it the home page and the progress page redirect to the login, a
    mark on the flashcards page writes nothing, [quiz_question] redirects
    to the start of a quiz, [quiz_next] raises [KeyError], and
    [quiz_result] shows 0 of 0. *)
Theorem logout_ends_session `{Library} req level s db g :
  let s' := (logout s).2 in
  (logout s).1 = redirect_to url_welcome
  ∧ home s' = redirect_to (path "/login")
  ∧ progress_page s' db = redirect_to url_login
  ∧ (flashcards req level s' db).2 = db
  ∧ quiz_question level (vocabulary db) s' g = Ok (Redirect (url_quiz level), g)
  ∧ quiz_next level (vocabulary db) s' g = Raise (KeyError "quiz_current")
  ∧ quiz_result level s' = (quiz_result_html 0 0 level, s').
Proof.
  simpl. split_and!; try done.
  unfold flashcards. simpl. by destruct (method req).
Qed.

(** ** More on the flashcards and on the quiz *)

Lemma same_id_same_row tbl (u v : vocab_row) :
  NoDup (v_id <$> tbl) → u ∈ tbl → v ∈ tbl → v_id u = v_id v → u = v.
Proof.
  intros Hnd Hu Hv Hid.
  pose proof (select_id_elem tbl u Hnd Hu) as Hsel.
  rewrite Hid, (select_id_elem tbl v Hnd Hv) in Hsel. congruence.
Qed.

Lemma select_after_spec level a tbl :
  least_by_id (λ v, at_level level v ∧ (a < v_id v)%Z) tbl
    (select_after level a tbl).
Proof. apply first_asc. Qed.

Lemma select_before_spec level a tbl :
  greatest_by_id (λ v, at_level level v ∧ (v_id v < a)%Z) tbl
    (select_before level a tbl).
Proof. apply first_desc. Qed.

(** The row after [v] has [v] as the row before it, and the other way
    round. *)
Lemma select_after_before level tbl v w :
  NoDup (v_id <$> tbl) → v ∈ tbl → at_level level v →
  select_after level (v_id v) tbl = Some w →
  select_before level (v_id w) tbl = Some v.
Proof.
  intros Hnd Hv Hlevel Hw.
  pose proof (select_after_spec level (v_id v) tbl) as Hafter.
  rewrite Hw in Hafter. destruct Hafter as (Hw_in & [Hw_level Hlt] & Hleast).
  pose proof (select_before_spec level (v_id w) tbl) as Hbefore.
  destruct (select_before level (v_id w) tbl) as [u|]; simpl in Hbefore.
  - destruct Hbefore as (Hu_in & [Hu_level Hu_lt] & Hgreatest).
    f_equal. apply (same_id_same_row tbl); [done..|].
    pose proof (Hgreatest v Hv ltac:(done)) as Hvu.
    destruct (decide (v_id v < v_id u)%Z) as [Hbetween|]; [|lia].
    pose proof (Hleast u Hu_in ltac:(done)). lia.
  - by destruct (Hbefore v Hv).
Qed.

Lemma select_before_after level tbl v w :
  NoDup (v_id <$> tbl) → v ∈ tbl → at_level level v →
  select_before level (v_id v) tbl = Some w →
  select_after level (v_id w) tbl = Some v.
Proof.
  intros Hnd Hv Hlevel Hw.
  pose proof (select_before_spec level (v_id v) tbl) as Hbefore.
  rewrite Hw in Hbefore.
  destruct Hbefore as (Hw_in & [Hw_level Hlt] & Hgreatest).
  pose proof (select_after_spec level (v_id w) tbl) as Hafter.
  destruct (select_after level (v_id w) tbl) as [u|]; simpl in Hafter.
  - destruct Hafter as (Hu_in & [Hu_level Hu_lt] & Hleast).
    f_equal. apply (same_id_same_row tbl); [done..|].
    pose proof (Hleast v Hv ltac:(done)) as Huv.
    destruct (decide (v_id u < v_id v)%Z) as [Hbetween|]; [|lia].
    pose proof (Hgreatest u Hu_in ltac:(done)). lia.
  - by destruct (Hafter v Hv).
Qed.

(** X12. Flashcards, there and back: from a card [v] of the level, when
    the request for the card after it shows [w], that page names [v] as
    its previous card, and the request for the card before [w] shows [v]
    again, naming [w] as its next card; and the same from a card to the
    one before it and back. *)
Theorem flashcards_there_and_back level s db v w :
  NoDup (v_id <$> vocabulary db) →
  v ∈ vocabulary db →
  at_level level v →
  let next_of i :=
    (flashcards {| method := GET; form_learned := None;
                   args_next := Some i; args_prev := None |} level s db).1 in
  let prev_of i :=
    (flashcards {| method := GET; form_learned := None;
                   args_next := None; args_prev := Some i |} level s db).1 in
  (∀ prev_id next_id,
     next_of (v_id v) = flashcards_html (Some w) level prev_id next_id →
     prev_id = Some (v_id v)
     ∧ ∃ prev_id', prev_of (v_id w)
                   = flashcards_html (Some v) level prev_id' (Some (v_id w)))
  ∧ (∀ prev_id next_id,
       prev_of (v_id v) = flashcards_html (Some w) level prev_id next_id →
       next_id = Some (v_id v)
       ∧ ∃ next_id', next_of (v_id w)
                     = flashcards_html (Some v) level (Some (v_id w)) next_id').
Proof.
  intros Hnd Hv Hlevel next_of prev_of. subst next_of prev_of.
  unfold flashcards, flashcards_page. simpl. split.
  - intros prev_id next_id Hpage.
    destruct (select_after level (v_id v) (vocabulary db)) as [w'|] eqn:Hw;
      [|done].
    injection Hpage as -> <- _.
    pose proof (select_after_before _ _ _ _ Hnd Hv Hlevel Hw) as Hback.
    rewrite Hback. split; [done|]. simpl. rewrite Hw. eauto.
  - intros prev_id next_id Hpage.
    destruct (select_before level (v_id v) (vocabulary db)) as [w'|] eqn:Hw;
      [|done].
    injection Hpage as -> _ <-.
    pose proof (select_before_after _ _ _ _ Hnd Hv Hlevel Hw) as Hback.
    rewrite Hback. split; [done|]. simpl. rewrite Hw. eauto.
Qed.

(** X13. What [flashcards] does to the database, whatever the request:
    the vocabulary is never written, and the progress records are the ones
    there were, in their order, with at most one record appended, which
    then is the record of a logged-in user's POST for the item named, with
    [learned = 1]. A GET, a request without a login and a request that
    names no item append nothing. *)
Theorem flashcards_appends_only req level s db :
  let db' := (flashcards req level s db).2 in
  vocabulary db' = vocabulary db
  ∧ (progress db' = progress db
     ∨ ∃ user vocab,
         method req = POST ∧ truthy (user_id s) = Some user
         ∧ form_learned req = Some vocab
         ∧ records_for user vocab (progress db) = []
         ∧ progress db'
           = progress db ++ [{| p_id := next_rowid (progress db);
                                p_user_id := user; p_vocab_id := vocab;
                                p_learned := 1 |}])
  ∧ (method req = GET ∨ truthy (user_id s) = None ∨ form_learned req = None →
     db' = db).
Proof.
  unfold flashcards.
  destruct (method req) eqn:Hm; simpl; [by auto|].
  destruct (truthy (user_id s)) as [user|] eqn:Hu; simpl; [|by auto].
  destruct (form_learned req) as [vocab|] eqn:Hf; simpl; [|by auto].
  split_and!.
  - unfold mark_learned. by destruct (select_progress _ _ _).
  - destruct (records_for user vocab (progress db)) as [|p l] eqn:Hrec.
    + right. exists user, vocab. split_and!; try done.
      by rewrite mark_learned_absent.
    + left. by rewrite mark_learned_present by by rewrite Hrec.
  - by intros [?|[?|?]].
Qed.

(** X14. A wrong answer needs no quiz: whatever the session holds,
    [quiz_submit] with an answer other than [correct_id], for a
    [correct_id] in the 64 bits the driver binds, stores the feedback that
    names the [hanzi] of the row [correct_id] and changes no other key,
    and the feedback page then shows that feedback with the position and
    the number of words of the session, 0 for those it does not have. When
    such a [correct_id] is no row's id, the request ends in a [TypeError].
    (A [correct_id] outside the 64 bits is refused by the driver with an
    [OverflowError], which is not among the exceptions modelled here.) *)
Theorem quiz_submit_wrong_answer level answer_id correct_id tbl s :
  answer_id ≠ correct_id →
  sqlite_int correct_id →
  match select_id correct_id tbl with
  | Some w =>
      let feedback := "Wrong! Correct answer: " +:+ v_hanzi w in
      quiz_submit level answer_id correct_id tbl s
      = Ok (Redirect (url_quiz_feedback level), set_quiz_feedback feedback s)
      ∧ quiz_feedback_page level (set_quiz_feedback feedback s)
        = quiz_question_html None None level
            (Z.of_nat (length (default [] (quiz_words s))))
            (default 0%Z (quiz_current s)) (Some feedback)
  | None =>
      quiz_submit level answer_id correct_id tbl s
      = Raise (TypeError "'NoneType' object is not subscriptable")
  end.
Proof.
  intros Hne _. unfold quiz_submit. rewrite bool_decide_eq_false_2 by done.
  by destruct (select_id correct_id tbl).
Qed.

(** X15. [quiz_submit] does not look at what was answered before: in a
    quiz, the same right answer sent [n] times in a row adds [n] to the
    counter and leaves the position where it was, so that [quiz_result]
    reports a number of right answers that can be above the number of
    questions. *)
Theorem quiz_submit_repeated tbl level ws current correct s g answer_id n :
  NoDup (v_id <$> tbl) →
  quiz_state tbl level ws current correct s →
  (0 ≤ current)%Z →
  is_Some (select_id answer_id tbl) →
  ∃ s',
    run level tbl (replicate n (Submit answer_id answer_id)) s g = Ok (s', g)
    ∧ quiz_current s' = Some current
    ∧ quiz_correct s' = Some (correct + Z.of_nat n)%Z
    ∧ (quiz_result level s').1
      = quiz_result_html (Z.of_nat (length ws)) (correct + Z.of_nat n) level.
Proof.
  intros Hnd Hs Hcur Hrow.
  assert (∀ k correct' s1,
            quiz_state tbl level ws current correct' s1 →
            ∃ s', run level tbl (replicate k (Submit answer_id answer_id)) s1 g
                  = Ok (s', g)
                  ∧ quiz_state tbl level ws current
                      (correct' + Z.of_nat k) s') as Hrun.
  { induction k as [|k IH]; intros correct' s1 Hs1.
    - exists s1. split; [done|]. by rewrite Z.add_0_r.
    - destruct (quiz_submit_state _ _ _ _ _ _ answer_id answer_id Hs1 Hrow)
        as (s2 & Hsub & Hs2).
      rewrite bool_decide_eq_true_2 in Hs2 by done.
      destruct (IH _ _ Hs2) as (s' & Hrun' & Hs').
      exists s'. simpl. rewrite Hsub. simpl. split; [done|].
      by replace (correct' + Z.of_nat (S k))%Z
        with (correct' + 1 + Z.of_nat k)%Z by lia. }
  destruct (Hrun n correct s Hs) as (s' & Hrun' & Hs').
  destruct Hs' as (_ & Hc & Hk & _ & Ht & _).
  exists s'. unfold quiz_result. rewrite Ht, Hk. by split_and!.
Qed.

(** X16. The feedback page after an answer: whenever [quiz_submit]
    returns, it is the redirect to the feedback page, and that page shows
    the feedback just stored, no question and no options, with the
    position and the number of words the session had before the answer. *)
Theorem quiz_feedback_after_submit level answer_id correct_id tbl s r s' :
  quiz_submit level answer_id correct_id tbl s = Ok (r, s') →
  r = Redirect (url_quiz_feedback level)
  ∧ ∃ feedback,
      quiz_feedback s' = Some feedback
      ∧ quiz_feedback_page level s'
        = quiz_question_html None None level
            (Z.of_nat (length (default [] (quiz_words s))))
            (default 0%Z (quiz_current s)) (Some feedback).
Proof.
  unfold quiz_submit. case_bool_decide.
  - destruct (quiz_correct s); simpl; [|done].
    intros [= <- <-]. split; [done|]. by eexists.
  - destruct (select_id correct_id tbl); simpl; [|done].
    intros [= <- <-]. split; [done|]. by eexists.
Qed.

(** ** Seeding *)

Section Seeding.
Context `{Library}.

(** The loop body inserts the columns of the row, or nothing for a row
    that is to be skipped, whatever the table holds. *)
Lemma seed_row_fields t row :
  seed_row t row
  = match seed_fields row with
    | Some (hanzi, pinyin, meaning, level) =>
        insert_vocabulary hanzi pinyin meaning level t
    | None => Some t
    end.
Proof.
  unfold seed_fields, seed_row.
  assert (∀ name, default "" (py_or (row !! name) (Some ""))
                  = default "" (row !! name)) as Hget.
  { intros name. by destruct (row !! name) as [[|a l]|]. }
  rewrite !Hget.
  assert (default "" (py_or (row !! "hsk_level")
                        (py_or (row !! "level") (Some "")))
          = if decide (default "" (row !! "hsk_level") = "")
            then default "" (row !! "level")
            else default "" (row !! "hsk_level")) as ->.
  { destruct (row !! "hsk_level") as [[|a l]|]; simpl; try apply Hget.
    done. }
  destruct (decide (py_strip (default "" (row !! "hanzi")) = "")).
  - by rewrite bool_decide_eq_true_2.
  - by rewrite bool_decide_eq_false_2.
Qed.

Lemma seed_fields_hanzi row hanzi pinyin meaning level :
  seed_fields row = Some (hanzi, pinyin, meaning, level) → hanzi ≠ "".
Proof.
  unfold seed_fields. case_decide; [done|]. by intros [= <- _ _ _].
Qed.

Lemma largest_key_insert hanzi pinyin meaning level t t' :
  insert_vocabulary hanzi pinyin meaning level t = Some t' →
  (largest_key t < 2 ^ 63 - 1)%Z
  ∧ largest_key t' = (largest_key t + 1)%Z
  ∧ vocab_seq t' = (largest_key t + 1)%Z
  ∧ vocab_rows t'
    = vocab_rows t ++ number_from (largest_key t + 1)
                        [(hanzi, pinyin, meaning, level)].
Proof.
  unfold insert_vocabulary. case_bool_decide as Hfree; [|done].
  intros [= <-]. split_and!; try done.
  unfold largest_key at 1. simpl. rewrite fmap_app, foldr_app. simpl.
  assert (∀ (l : list Z) a, (0 ≤ a)%Z →
            (0 ≤ foldr Z.max 0 l)%Z
            ∧ foldr Z.max a l = Z.max a (foldr Z.max 0%Z l)) as Hmax.
  { induction l as [|x l IH]; intros a Ha; simpl; [lia|].
    destruct (IH a Ha). lia. }
  destruct (Hmax (v_id <$> vocab_rows t) (Z.max (largest_key t + 1) 0))
    as [? ->]; unfold largest_key in *; lia.
Qed.

Lemma number_from_ids first fields :
  v_id <$> number_from first fields
  = (λ i, first + Z.of_nat i)%Z <$> seq 0 (length fields).
Proof.
  revert first. induction fields as [|[[[h p] m] l] fields IH];
    intros first; simpl; [done|].
  rewrite Z.add_0_r, IH, <-fmap_S_seq, <-list_fmap_compose.
  f_equal. apply list_fmap_ext. intros _ i _. simpl. lia.
Qed.

Lemma number_from_fields first fields :
  (λ v, (v_hanzi v, v_pinyin v, v_meaning v, v_hsk_level v))
  <$> number_from first fields = fields.
Proof.
  revert first. induction fields as [|[[[h p] m] l] fields IH];
    intros first; simpl; [done|]. by rewrite IH.
Qed.

(** The loop stores the rows of the file that are not skipped, in the
    order of the file and under consecutive keys, when as many keys are
    left; otherwise an insertion fails. *)
Lemma seed_rows_spec rows : ∀ t,
  let fields := omap seed_fields rows in
  (fields = [] ∨ (largest_key t + Z.of_nat (length fields) < 2 ^ 63)%Z →
   ∃ t', seed_rows t rows = Some t'
         ∧ vocab_rows t'
           = vocab_rows t ++ number_from (largest_key t + 1) fields
         ∧ vocab_seq t'
           = if fields is [] then vocab_seq t
             else (largest_key t + Z.of_nat (length fields))%Z)
  ∧ (fields ≠ [] → (2 ^ 63 ≤ largest_key t + Z.of_nat (length fields))%Z →
     seed_rows t rows = None).
Proof.
  induction rows as [|row rows IH]; intros t.
  { simpl. split; [|done]. intros _. exists t. by rewrite app_nil_r. }
  cbn [seed_rows]. rewrite seed_row_fields.
  change (omap seed_fields (row :: rows))
    with (match seed_fields row with
          | Some f => f :: omap seed_fields rows
          | None => omap seed_fields rows
          end).
  destruct (seed_fields row) as [[[[hanzi pinyin] meaning] level]|] eqn:Hrow;
    [|apply IH].
  destruct (insert_vocabulary hanzi pinyin meaning level t) as [t1|] eqn:Hins.
  - apply largest_key_insert in Hins as (Hfree & Hkey & Hseq & Hrows).
    destruct (IH t1) as [Hok Hfull]. rewrite Hkey, Hrows in *.
    clear IH. set (fields' := omap seed_fields rows) in *.
    cbn [mbind option_bind length]. split.
    + intros [?|Hleft]; [done|].
      destruct Hok as (t' & -> & Hrows' & Hseq').
      { destruct fields'; [by left|right; simpl in *; lia]. }
      exists t'. split_and!; [done| |].
      * rewrite Hrows', <-app_assoc. done.
      * rewrite Hseq', Hseq. destruct fields'; simpl; lia.
    + intros _ Hnone. apply Hfull; [|lia].
      intros Hnil. rewrite Hnil in Hnone. simpl in Hnone. lia.
  - unfold insert_vocabulary in Hins. case_bool_decide; [done|].
    cbn [mbind option_bind length].
    split; [|done]. intros [?|?]; [done|lia].
Qed.

(** The loop removes nothing: it leaves the table as it was or longer. *)
Lemma seed_rows_grows rows : ∀ t t',
  seed_rows t rows = Some t' →
  t' = t ∨ length (vocab_rows t) < length (vocab_rows t').
Proof.
  induction rows as [|row rows IH]; intros t t'; simpl.
  { intros [= <-]. by left. }
  rewrite seed_row_fields.
  destruct (seed_fields row) as [[[[hanzi pinyin] meaning] level]|];
    simpl; [|apply IH].
  destruct (insert_vocabulary hanzi pinyin meaning level t) as [t1|] eqn:Hins;
    simpl; [|done].
  apply largest_key_insert in Hins as (_ & _ & _ & Hrows).
  intros [->|Hlt]%IH; right; rewrite Hrows, length_app in *; simpl in *; lia.
Qed.

(** X17. [seed_if_empty] writes only into an empty table, and only when
    there is a file: a table with a row is returned as it is, and so is
    any table when the file is missing. Seeding twice from the same file
    leaves what seeding once left. *)
Theorem seed_if_empty_idempotent file t :
  (vocab_rows t ≠ [] ∨ file = None → seed_if_empty file t = t)
  ∧ seed_if_empty file (seed_if_empty file t) = seed_if_empty file t.
Proof.
  assert (∀ t, vocab_rows t ≠ [] ∨ file = None → seed_if_empty file t = t)
    as Hkeep.
  { intros [tbl k] Ht. unfold seed_if_empty.
    destruct tbl as [|v tbl]; simpl.
    - destruct Ht as [?| ->]; done.
    - done. }
  split; [apply Hkeep|].
  destruct (decide (vocab_rows (seed_if_empty file t) = [])) as [Hempty|Hrows].
  - destruct (decide (vocab_rows t = [])) as [Ht|Ht];
      [|by rewrite !(Hkeep t) by (by left)].
    destruct file as [rows|]; [|by rewrite !(Hkeep t) by (by right)].
    revert Hempty. unfold seed_if_empty at 1 3. rewrite Ht. simpl.
    destruct (seed_rows t rows) as [t'|] eqn:Hrun.
    + intros Hempty.
      destruct (seed_rows_grows _ _ _ Hrun) as [->|Hlt]; [|].
      * unfold seed_if_empty. by rewrite Ht, Hrun.
      * rewrite Hempty in Hlt. simpl in Hlt. lia.
    + intros _. unfold seed_if_empty. by rewrite Ht, Hrun.
  - apply Hkeep. by left.
Qed.

(** X18. Seeding an empty table from a file stores the rows of the file
    in their order, each with its stripped columns [hanzi], [pinyin] and
    [meaning] and, as level, the stripped column [hsk_level], or [level]
    when that one is missing or empty. A row whose [hanzi] is missing or
    empty once stripped is left out and leaves no gap: the keys continue,
    without a hole, after the largest key [k] the table ever held (1, 2,
    ... in a table that never held a row), [sqlite_sequence] records the
    last of them, and no stored row has an empty [hanzi]. This is for a
    file with no more rows to store than keys are left below [2^63]; with
    more, the table stays empty. *)
Theorem seed_from_empty rows k :
  let fields := omap seed_fields rows in
  let n := length fields in
  let t := seed_if_empty (Some rows) {| vocab_rows := []; vocab_seq := k |} in
  ((Z.max k 0 + Z.of_nat n < 2 ^ 63)%Z →
   vocab_rows t = number_from (Z.max k 0 + 1) fields
   ∧ (λ v, (v_hanzi v, v_pinyin v, v_meaning v, v_hsk_level v))
     <$> vocab_rows t = fields
   ∧ v_id <$> vocab_rows t = (λ i, Z.max k 0 + Z.of_nat i)%Z <$> seq 1 n
   ∧ vocab_seq t = (if fields is [] then k else Z.max k 0 + Z.of_nat n)%Z
   ∧ Forall (λ v, v_hanzi v ≠ "") (vocab_rows t))
  ∧ (fields ≠ [] → (2 ^ 63 ≤ Z.max k 0 + Z.of_nat n)%Z →
     t = {| vocab_rows := []; vocab_seq := k |}).
Proof.
  intros fields n t. subst t. unfold seed_if_empty. simpl.
  destruct (seed_rows_spec rows {| vocab_rows := []; vocab_seq := k |})
    as [Hok Hfull].
  unfold largest_key in Hok, Hfull. simpl in Hok, Hfull. fold fields in Hok, Hfull.
  split.
  - intros Hleft. destruct Hok as (t' & -> & Hrows & Hseq); [by right|].
    rewrite Hrows, Hseq. split_and!; [done| | |done|].
    + apply number_from_fields.
    + rewrite number_from_ids, <-fmap_S_seq, <-list_fmap_compose.
      apply list_fmap_ext. intros _ i _. simpl. lia.
    + assert (Forall (λ f, f.1.1.1 ≠ "") fields) as Hall.
      { apply Forall_forall. intros [[[h p] m] l] Hin. simpl.
        apply list_elem_of_omap in Hin as (row & _ & Hrow).
        by eapply seed_fields_hanzi. }
      clear -Hall. generalize (Z.max k 0 + 1)%Z as first.
      induction Hall as [|[[[h p] m] l] fields' Hh Hall IH]; intros first;
        simpl; constructor; [done|apply IH].
  - intros Hne Hmore. by rewrite Hfull.
Qed.
End Seeding.

(** ** The other pages on the sample data *)

Lemma one_mark_one_record : one_record_per_pair (progress one_mark).
Proof.
  intros u v. unfold records_for. simpl.
  rewrite filter_cons, filter_nil. case_decide; simpl; lia.
Defined.

(** Without the bound on the records the list repeats a row: with two
    records of user 42 for row 1, the list of level 1 has row 1 twice. *)
Example vocab_list_repeated_record :
  fst <$> @vocab_list_rows plain_library "" 1 user_42
            {| vocabulary := words_from 1 2 "1";
               progress := [{| p_id := 1; p_user_id := 42; p_vocab_id := 1;
                               p_learned := 1 |};
                            {| p_id := 2; p_user_id := 42; p_vocab_id := 1;
                               p_learned := 1 |}] |}
  = [word 1 "1"; word 1 "1"; word 2 "1"].
Proof. reflexivity. Qed.

(** Page -1 of a list of 23 rows shows the rows 4 to 13. *)
Example vocab_list_negative_page :
  (v_id ∘ fst)
  <$> shown_rows (@vocab_list plain_library
                    {| args_search := None; args_page := Some (-1)%Z |}
                    1 no_session level_of_23)
  = [4; 5; 6; 7; 8; 9; 10; 11; 12; 13]%Z.
Proof. reflexivity. Qed.

Lemma vocab_list_learned_column_witness :
  one_record_per_pair (progress one_mark)
  ∧ @vocab_list_rows plain_library "" 2 user_42 one_mark
    = (λ v, (v, learned_flag 42 (progress one_mark) v))
      <$> @listed plain_library "" 2 (vocabulary one_mark).
Proof.
  split; [apply one_mark_one_record|].
  apply (@vocab_list_learned_column plain_library "" 2 user_42 one_mark
           one_mark_one_record).
Defined.

Lemma vocab_list_after_mark_witness :
  one_record_per_pair (progress one_mark)
  ∧ method mark_5 = POST
  ∧ truthy (user_id user_42) = Some 42%Z
  ∧ form_learned mark_5 = Some 5%Z
  ∧ @vocab_list_rows plain_library "" 2 user_42
      (flashcards mark_5 2 user_42 one_mark).2
    = (λ v, (v, if decide (v_id v = 5%Z) then 1%Z
                else learned_flag 42 (progress one_mark) v))
      <$> @listed plain_library "" 2 (vocabulary one_mark).
Proof.
  split_and!; [apply one_mark_one_record | reflexivity..|].
  apply (@vocab_list_after_mark plain_library mark_5 2 "" 2 user_42 one_mark
           42 5 one_mark_one_record eq_refl eq_refl eq_refl).
Defined.

Lemma hsk_select_counts_witness :
  one_record_per_pair (progress one_mark)
  ∧ shown_levels (hsk_select one_mark)
    = (λ i, (i, Z.of_nat (length (@vocab_list_rows plain_library "" i
                                     user_42 one_mark))))
      <$> [1; 2; 3; 4; 5; 6]%Z.
Proof.
  split; [apply one_mark_one_record|].
  apply (@hsk_select_counts plain_library user_42 one_mark
           one_mark_one_record).
Defined.

(** With 29 of 50 rows learned the page shows 57, while the percentage
    is 58: the float nearest to 29/50 is below it, and so is its product
    with 100. *)
Lemma progress_page_counts_witness :
  NoDup (v_id <$> vocabulary learned_29_of_50)
  ∧ progress_page user_42 learned_29_of_50
    = progress_html [(1, 57); (2, 0); (3, 0); (4, 0); (5, 0); (6, 0)]%Z
  ∧ ((100 * 29) `div` 50 = 58)%Z
  ∧ ((100 * 29) `mod` 50 = 0)%Z.
Proof.
  assert (NoDup (v_id <$> vocabulary learned_29_of_50)) as Hids
    by compute_done.
  split_and!; [exact Hids | | reflexivity | reflexivity].
  destruct (progress_page_counts user_42 learned_29_of_50 Hids) as [-> _].
  vm_compute. reflexivity.
Defined.

(** One of the five rows of level 2 learned is 20 percent. *)
Example progress_1_of_5 :
  progress_page user_42 one_mark
  = progress_html [(1, 0); (2, 20); (3, 0); (4, 0); (5, 0); (6, 0)]%Z.
Proof. vm_compute. reflexivity. Qed.

Lemma count_learned_after_mark_witness :
  NoDup (v_id <$> vocabulary one_mark)
  ∧ method mark_5 = POST
  ∧ truthy (user_id user_42) = Some 42%Z
  ∧ form_learned mark_5 = Some 5%Z
  ∧ records_for 42 5 (progress one_mark) = []
  ∧ count_learned 42 2 (flashcards mark_5 2 user_42 one_mark).2
    = (count_learned 42 2 one_mark + 1)%Z
  ∧ count_learned 42 3 (flashcards mark_5 2 user_42 one_mark).2
    = count_learned 42 3 one_mark.
Proof.
  split_and!; [apply three_levels_ids | reflexivity..| |].
  - destruct (count_learned_after_mark mark_5 2 2 user_42 one_mark 42 5
                three_levels_ids eq_refl eq_refl eq_refl eq_refl)
      as [-> _].
    reflexivity.
  - reflexivity.
Defined.


Lemma signup_keeps_emails_unique_witness :
  NoDup (u_email <$> two_users)
  ∧ NoDup (u_id <$> two_users)
  ∧ signup_request POST "li@example.org" "pw"
      {| user_rows := two_users; write_locked := false |}
    = (IntegrityError "UNIQUE constraint failed: users.email",
       {| user_rows := two_users; write_locked := true |})
  ∧ "li@example.org" ∈ u_email <$> two_users.
Proof.
  assert (NoDup (u_email <$> two_users)) as Hemails by compute_done.
  assert (NoDup (u_id <$> two_users)) as Hids by compute_done.
  split_and!; [exact Hemails | exact Hids | reflexivity |].
  pose proof (signup_keeps_emails_unique "li@example.org" "pw"
                {| user_rows := two_users; write_locked := false |}
                Hemails Hids) as Hsignup.
  change (signup_request POST "li@example.org" "pw"
            {| user_rows := two_users; write_locked := false |})
    with (@IntegrityError view "UNIQUE constraint failed: users.email",
          {| user_rows := two_users; write_locked := true |}) in Hsignup.
  exact (proj1 (proj2 (proj2 (proj2 Hsignup)))).
Defined.

(** A refused sign-up leaves the lock held: the sign-up after it, with
    an email nobody has, ends in the [OperationalError] and adds no row,
    as long as the connection of the first is not collected. *)
Example signup_after_refusal :
  ∃ t, signup_request POST "li@example.org" "pw"
         {| user_rows := two_users; write_locked := false |}
       = (IntegrityError "UNIQUE constraint failed: users.email", t)
     ∧ signup_request POST "new@example.org" "pw" t
       = (OperationalError "database is locked", t)
     ∧ user_rows t = two_users.
Proof. by eexists. Qed.

Lemma flashcards_there_and_back_witness :
  NoDup (v_id <$> vocabulary one_mark)
  ∧ word 4 "2" ∈ vocabulary one_mark
  ∧ at_level 2 (word 4 "2")
  ∧ (flashcards {| method := GET; form_learned := None;
                   args_next := Some 4%Z; args_prev := None |}
       2 no_session one_mark).1
    = flashcards_html (Some (word 5 "2")) 2 (Some 4%Z) (Some 6%Z)
  ∧ ∃ prev_id',
      (flashcards {| method := GET; form_learned := None;
                     args_next := None; args_prev := Some 5%Z |}
         2 no_session one_mark).1
      = flashcards_html (Some (word 4 "2")) 2 prev_id' (Some 5%Z).
Proof.
  assert (word 4 "2" ∈ vocabulary one_mark) as Hin by compute_done.
  split_and!; [apply three_levels_ids | exact Hin | reflexivity
              | reflexivity |].
  destruct (flashcards_there_and_back 2 no_session one_mark (word 4 "2")
              (word 5 "2") three_levels_ids Hin eq_refl) as [Hnext _].
  destruct (Hnext (Some 4%Z) (Some 6%Z) eq_refl) as [_ Hback].
  exact Hback.
Defined.

Lemma quiz_submit_wrong_answer_witness :
  4%Z ≠ 3%Z
  ∧ sqlite_int 3 ∧ sqlite_int 99
  ∧ quiz_submit 2 4 3 three_levels no_session
    = Ok (Redirect (url_quiz_feedback 2),
          set_quiz_feedback "Wrong! Correct answer: w3" no_session)
  ∧ quiz_submit 2 4 99 three_levels no_session
    = Raise (TypeError "'NoneType' object is not subscriptable").
Proof.
  assert (sqlite_int 3) as H3 by (unfold sqlite_int; lia).
  assert (sqlite_int 99) as H99 by (unfold sqlite_int; lia).
  split_and!; [done..| |].
  - apply (quiz_submit_wrong_answer 2 4 3 three_levels no_session
             ltac:(done) H3).
  - apply (quiz_submit_wrong_answer 2 4 99 three_levels no_session
             ltac:(done) H99).
Defined.

Lemma quiz_submit_repeated_witness :
  NoDup (v_id <$> three_levels)
  ∧ quiz_state three_levels 2 [3; 7; 6; 5; 4]%Z 0 0 started
  ∧ (0 ≤ 0)%Z
  ∧ is_Some (select_id 3 three_levels)
  ∧ ∃ s',
      run 2 three_levels (replicate 7 (Submit 3 3)) started [] = Ok (s', [])
      ∧ (quiz_result 2 s').1 = quiz_result_html 5 7 2.
Proof.
  assert (is_Some (select_id 3 three_levels)) as Hrow by (vm_compute; eauto).
  split_and!; [apply three_levels_ids | apply started_state | lia
              | exact Hrow |].
  destruct (quiz_submit_repeated three_levels 2 [3; 7; 6; 5; 4]%Z 0 0 started
              [] 3 7 three_levels_ids started_state ltac:(lia) Hrow)
    as (s' & Hrun & _ & _ & Hresult).
  by exists s'.
Defined.

Lemma quiz_feedback_after_submit_witness :
  quiz_submit 2 3 3 three_levels started
  = Ok (Redirect (url_quiz_feedback 2),
        set_quiz_feedback "Correct!" (set_quiz_correct 1 started))
  ∧ quiz_feedback_page 2
      (set_quiz_feedback "Correct!" (set_quiz_correct 1 started))
    = quiz_question_html None None 2 5 0 (Some "Correct!").
Proof.
  split; [reflexivity|].
  destruct (quiz_feedback_after_submit 2 3 3 three_levels started
              (Redirect (url_quiz_feedback 2))
              (set_quiz_feedback "Correct!" (set_quiz_correct 1 started))
              eq_refl)
    as (_ & feedback & Hfeedback & Hpage).
  injection Hfeedback as <-. exact Hpage.
Defined.

Lemma seed_from_empty_witness :
  (Z.max 4 0
   + Z.of_nat (length (omap (@seed_fields plain_library) three_csv_rows))
   < 2 ^ 63)%Z
  ∧ @seed_if_empty plain_library (Some three_csv_rows) emptied_table
    = {| vocab_rows :=
           [{| v_id := 5; v_hanzi := "ni"; v_pinyin := "ni3";
               v_meaning := "you"; v_hsk_level := "1" |};
            {| v_id := 6; v_hanzi := "shu"; v_pinyin := "shu1";
               v_meaning := "book"; v_hsk_level := "2" |}];
         vocab_seq := 6 |}.
Proof.
  assert (Z.max 4 0
          + Z.of_nat (length (omap (@seed_fields plain_library)
                                three_csv_rows)) < 2 ^ 63)%Z as Hkeys
    by (vm_compute; reflexivity).
  split; [exact Hkeys|].
  destruct (@seed_from_empty plain_library three_csv_rows 4) as [Hok _].
  destruct (Hok Hkeys) as (Hrows & _ & _ & Hseq & _).
  change {| vocab_rows := []; vocab_seq := 4 |} with emptied_table
    in Hrows, Hseq.
  destruct (@seed_if_empty plain_library (Some three_csv_rows) emptied_table)
    as [tbl k].
  simpl in Hrows, Hseq. rewrite Hrows, Hseq. vm_compute. reflexivity.
Defined.

(** With the last key but one used, the first row of the file gets the
    last key, the insertion of the second one to store fails, and the
    table stays empty. *)
Example seed_nearly_full :
  @seed_rows plain_library nearly_full_table (take 1 three_csv_rows)
  = Some {| vocab_rows :=
              [{| v_id := 2 ^ 63 - 1; v_hanzi := "ni"; v_pinyin := "ni3";
                  v_meaning := "you"; v_hsk_level := "1" |}];
            vocab_seq := 2 ^ 63 - 1 |}
  ∧ @seed_rows plain_library nearly_full_table three_csv_rows = None
  ∧ @seed_if_empty plain_library (Some three_csv_rows) nearly_full_table
    = nearly_full_table.
Proof. split_and!; vm_compute; reflexivity. Qed.
